(** * OCR-REPO frontend: a shallow embedding of the job-status, result-viewer
      and upload components, with the properties the specification states
      about them.

    Sources embedded here (file -> definitions):
    - types/index.ts                 -> [Job], [ProcessingStages], [Block], ...
    - components/JobStatusPage.tsx   -> [getStatusColor], [getProgress]
    - hooks/useJobPolling.ts         -> [poll], [run_polls]
    - components/BlockHighlighter.tsx-> [highlightText], [block_dom_id]
    - components/ResultViewer.tsx    -> [filterBlocks], [renderBlocks],
                                        [render], [handleBlockClick]
    - components/UploadPage.tsx      -> [handleFileSelect]

    JavaScript numbers are IEEE-754 binary64 values; they are modelled by
    Rocq's primitive floats, so [33.33] below is the very double the
    JavaScript literal denotes.  JavaScript strings are modelled by [string];
    characters outside ASCII carry no case in this model. *)

From Stdlib Require Import String Ascii List ZArith NArith Lia Bool Floats.
From Stdlib Require Import DecimalString.
From Equations Require Import Equations.
From stdpp Require Import base option list.
Import ListNotations.

Open Scope string_scope.
Open Scope list_scope.

(* ===================================================================== *)
(** * 1. JavaScript string primitives                                     *)
(* ===================================================================== *)

(** [s1 === s2] on two strings. *)
Definition str_eq (a b : string) : bool := String.eqb a b.

(** JavaScript truthiness of a string: only the empty string is falsy. *)
Definition truthy (s : string) : bool := negb (String.eqb s "").

(** [String.prototype.toLowerCase], one character. *)
Definition lower_char (c : ascii) : ascii :=
  let n := nat_of_ascii c in
  if (65 <=? n)%nat && (n <=? 90)%nat then ascii_of_nat (n + 32) else c.

(** [String.prototype.toLowerCase]. *)
Fixpoint toLowerCase (s : string) : string :=
  match s with
  | EmptyString => EmptyString
  | String c s' => String (lower_char c) (toLowerCase s')
  end.

(** [String.prototype.includes]: [q] occurs in [s] as a contiguous run. *)
Fixpoint includes (s q : string) : bool :=
  String.prefix q s ||
  match s with
  | EmptyString => false
  | String _ s' => includes s' q
  end.

(* ===================================================================== *)
(** * 2. types/index.ts                                                   *)
(* ===================================================================== *)

Record JobStats := mkJobStats {
  total_pages : option N;
  total_blocks : option N;
  total_characters_arabic : option N;
  total_characters_english : option N
}.

Record ProcessingStages := mkProcessingStages {
  extraction : string;
  ocr : string;
  translation : string
}.

Record Job := mkJob {
  job_id : string;
  status : string;
  original_filename : string;
  created_at : string;
  updated_at : string;
  stats : option JobStats;
  error_message : option string;
  processing_stages : ProcessingStages
}.

Record TableMetadata := mkTableMetadata {
  row : option N;
  col : option N;
  table_id : option string
}.

Record BlockMetadata := mkBlockMetadata {
  is_heading : option bool;
  heading_level : option N;
  list_level : option N;
  table : option TableMetadata;
  confidence : option float
}.

Record Block := mkBlock {
  block_id : string;
  type : string;
  metadata : BlockMetadata;
  text : string
}.

Record Page := mkPage {
  page_index : N;
  blocks : list Block
}.

Record DocumentMetadata := mkDocumentMetadata {
  source_filename : string;
  doc_total_pages : N;
  extraction_timestamp : string;
  ocr_engine : option string
}.

Record StructuredDocument := mkStructuredDocument {
  document_id : string;
  language : string;
  pages : list Page;
  doc_metadata : DocumentMetadata
}.

Record JobResult := mkJobResult {
  result_job_id : string;
  arabic : option StructuredDocument;
  english : option StructuredDocument
}.

(* ===================================================================== *)
(** * 3. components/JobStatusPage.tsx                                     *)
(* ===================================================================== *)

Module JobStatusPage.

(** [getStatusColor]: a [switch] over the status string with a [default]. *)
Definition getStatusColor (st : string) : string :=
  if str_eq st "completed" then "success"
  else if str_eq st "failed" then "error"
  else if str_eq st "processing" || str_eq st "extracting"
          || str_eq st "ocr" || str_eq st "translating" then "info"
  else "default".

(** The two literals added to [progress] in [getProgress]. *)
#[warnings="-inexact-float"]
Definition completed_share : float := 33.33%float.
#[warnings="-inexact-float"]
Definition in_progress_share : float := 11.11%float.

(** Body of the [stages.forEach] callback: the update of [progress]. *)
Definition add_stage (progress : float) (stage : string) : float :=
  if str_eq stage "completed" then (progress + completed_share)%float
  else if str_eq stage "in_progress" then (progress + in_progress_share)%float
  else progress.

(** [Math.min(a, b)] for operands that are not both zero. *)
Definition Math_min (a b : float) : float :=
  if PrimFloat.is_nan a || PrimFloat.is_nan b then PrimFloat.nan
  else if PrimFloat.ltb a b then a else b.

(** The list [stages] built inside [getProgress]. *)
Definition stages_of (j : Job) : list string :=
  [ extraction (processing_stages j);
    ocr (processing_stages j);
    translation (processing_stages j) ].

(** [getProgress]; the component state [job] is [Job | null]. *)
Definition getProgress (job : option Job) : float :=
  match job with
  | None => 0%float
  | Some j =>
      if str_eq (status j) "completed" then 100%float
      else if str_eq (status j) "failed" then 0%float
      else Math_min (fold_left add_stage (stages_of j) 0%float) 99%float
  end.

(** [Math.round] of a number: the nearest integer, ties upwards; nothing for
    [NaN] and the infinities.  A finite double is [m * 2^e]. *)
Definition Math_round (x : float) : option Z :=
  match Prim2SF x with
  | S754_zero _ => Some 0%Z
  | S754_finite s m e =>
      let n := if s then Z.neg m else Z.pos m in
      Some (if (0 <=? e)%Z then (n * 2 ^ e)%Z
            else ((2 * n + 2 ^ (- e)) / (2 * 2 ^ (- e)))%Z)
  | _ => None
  end.

(** The number in the caption under the bar: [Math.round(getProgress())]. *)
Definition progress_label (job : option Job) : option Z :=
  Math_round (getProgress job).

(** The [View Results] button: [job.status === 'completed' && ...]. *)
Definition view_results_shown (j : Job) : bool :=
  str_eq (status j) "completed".

End JobStatusPage.

(* ===================================================================== *)
(** * 4. hooks/useJobPolling.ts                                           *)
(* ===================================================================== *)

Module useJobPolling.

(** Which of the optional callbacks the caller supplied. *)
Record Options := mkOptions {
  onUpdate : bool;
  onComplete : bool;
  onError : bool
}.

(** What a run of [poll] does to the outside world, in program order. *)
Inductive Effect :=
| CallOnUpdate (job : Job)
| CallOnComplete (job : Job)
| CallOnError (message : string)
| ClearInterval (timer : N).

(** Outcome of [await getJob(jobId)]: the job, or the thrown error's message. *)
Inductive Response :=
| Resolved (job : Job)
| Rejected (message : string).

(** [job.error_message || 'Job failed']: an absent or empty message is falsy. *)
Definition or_default (m : option string) (d : string) : string :=
  match m with
  | Some s => if truthy s then s else d
  | None => d
  end.

(** [if (intervalRef.current) { clearInterval(...); intervalRef.current = null }] *)
Definition clear_ref (ref : option N) : option N * list Effect :=
  match ref with
  | Some t => (None, [ClearInterval t])
  | None => (None, [])
  end.

(** One run of [poll], from the value of [intervalRef.current] when the
    awaited request settles to its value afterwards, with the effects. *)
Definition poll (o : Options) (ref : option N) (r : Response)
  : option N * list Effect :=
  match r with
  | Resolved job =>
      let upd := if onUpdate o then [CallOnUpdate job] else [] in
      if str_eq (status job) "completed" || str_eq (status job) "failed" then
        let '(ref', clr) := clear_ref ref in
        let fin :=
          if str_eq (status job) "completed" && onComplete o then
            [CallOnComplete job]
          else if str_eq (status job) "failed" && onError o then
            [CallOnError (or_default (error_message job) "Job failed")]
          else [] in
        (ref', upd ++ clr ++ fin)
      else (ref, upd)
  | Rejected msg =>
      let err := if onError o then [CallOnError msg] else [] in
      let '(ref', clr) := clear_ref ref in
      (ref', err ++ clr)
  end.

(** The timer keeps firing [poll] while [intervalRef.current] holds it; each
    request settles before the next tick.  The first response is the one of
    the initial [poll()], which settles after [setInterval] has been stored. *)
Fixpoint run_polls (o : Options) (ref : option N) (rs : list Response)
  : option N * list Effect :=
  match ref, rs with
  | Some _, r :: rs' =>
      let '(ref1, es1) := poll o ref r in
      let '(ref2, es2) := run_polls o ref1 rs' in
      (ref2, es1 ++ es2)
  | _, _ => (ref, [])
  end.

(** The effect body: nothing happens unless [enabled] and [jobId] is truthy. *)
Definition useEffect_body (o : Options) (jobId : string) (enabled : bool)
    (timer : N) (rs : list Response) : option N * list Effect :=
  if negb enabled || negb (truthy jobId) then (None, [])
  else run_polls o (Some timer) rs.

(** A job whose status ends the polling. *)
Definition terminal (j : Job) : bool :=
  str_eq (status j) "completed" || str_eq (status j) "failed".

Definition running_response (r : Response) : bool :=
  match r with
  | Resolved j => negb (terminal j)
  | Rejected _ => false
  end.

(** The [stopPolling] function the hook returns. *)
Definition stopPolling (ref : option N) : option N * list Effect :=
  clear_ref ref.

(** The callbacks among the effects that end a polling session. *)
Definition is_final_call (e : Effect) : bool :=
  match e with
  | CallOnComplete _ | CallOnError _ => true
  | _ => false
  end.

Definition is_clear (e : Effect) : bool :=
  match e with ClearInterval _ => true | _ => false end.

End useJobPolling.

(* ===================================================================== *)
(** * 5. components/BlockHighlighter.tsx                                  *)
(* ===================================================================== *)

Module BlockHighlighter.

Inductive Language := ar | en.

(** [language === 'ar' ? 'ar' : 'en'] *)
Definition lang_tag (l : Language) : string :=
  match l with ar => "ar" | en => "en" end.

(** The [id] attribute of the rendered [Paper]. *)
Definition block_dom_id (l : Language) (b : Block) : string :=
  "block-" ++ lang_tag l ++ "-" ++ block_id b.

(** Characters with a meaning of their own in a regular-expression pattern. *)
Definition metachars : list ascii :=
  list_ascii_of_string "\^$.|?*+()[]{}".

Definition is_meta (c : ascii) : bool :=
  existsb (Ascii.eqb c) metachars.

Definition regex_literal (q : string) : bool :=
  forallb (fun c => negb (is_meta c)) (list_ascii_of_string q).

(** Canonicalize of the [i] flag without the [u] flag: upper-casing. *)
Definition canonicalize (c : ascii) : ascii :=
  let n := nat_of_ascii c in
  if (97 <=? n)%nat && (n <=? 122)%nat then ascii_of_nat (n - 32) else c.

(** Sticky match of the literal [q] at the front of [t], ignoring case:
    the matched characters of [t] and what follows them. *)
Fixpoint match_at (q t : string) : option (string * string) :=
  match q with
  | EmptyString => Some (EmptyString, t)
  | String a q' =>
      match t with
      | EmptyString => None
      | String c t' =>
          if Ascii.eqb (canonicalize a) (canonicalize c) then
            match match_at q' t' with
            | Some (m, r) => Some (String c m, r)
            | None => None
            end
          else None
      end
  end.

(** Remembers the equation of a scrutinee for a termination argument. *)
Definition inspect {A : Type} (x : A) : {y : A | x = y} := exist _ x eq_refl.

(** [text.split(re)] for [re] the one-group literal [(a q)] with flags [gi]:
    [seg] is the text since the last split point, [rest] what is left to scan.
    A match at the scan position closes the segment and contributes the
    captured text; otherwise the scan moves one character on. *)
Equations? split_scan (a : ascii) (q : string) (seg rest : string)
  : list string by wf (String.length rest) lt :=
  split_scan a q seg EmptyString := [seg];
  split_scan a q seg (String c rest') with inspect (match_at (String a q) (String c rest')) := {
    | exist _ (Some (m, r)) E := seg :: m :: split_scan a q EmptyString r;
    | exist _ None _ := split_scan a q (seg ++ String c EmptyString) rest' }.
Proof.
  2: simpl; lia.
  assert (G : forall q t m r, match_at q t = Some (m, r) ->
                (String.length r <= String.length t)%nat).
  { clear. induction q as [|b q IH]; intros t m r; simpl.
    - intros [= _ <-]. lia.
    - destruct t as [|c t]; [discriminate|].
      destruct (Ascii.eqb _ _); [|discriminate].
      destruct (match_at q t) as [[m' r']|] eqn:E; [|discriminate].
      intros [= _ <-]. apply IH in E. simpl. lia. }
  simpl in E. destruct (Ascii.eqb _ _); [|discriminate].
  destruct (match_at q rest') as [[m' r']|] eqn:E'; [|discriminate].
  injection E as _ <-. apply G in E'. simpl. lia.
Qed.

(** [text.split(new RegExp(`(${query})`, 'gi'))], for the patterns this model
    covers: a non-empty [query] free of metacharacters. *)
Definition split_query (text query : string) : option (list string) :=
  match query with
  | EmptyString => None
  | String a q => if regex_literal query then Some (split_scan a q "" text) else None
  end.

(** One child of the rendered [Typography]: a string or a [<mark>]. *)
Inductive Part :=
| Plain (s : string)
| Mark (s : string).

Definition part_text (p : Part) : string :=
  match p with Plain s => s | Mark s => s end.

(** What [highlightText] returns: the text itself, or the mapped parts. *)
Inductive Highlighted :=
| Unchanged (text : string)
| Parts (ps : list Part).

(** The callback of [parts.map]. *)
Definition mark_part (query part : string) : Part :=
  if str_eq (toLowerCase part) (toLowerCase query) then Mark part else Plain part.

(** [highlightText].  The result is [None] for a query with a metacharacter,
    which this model does not cover: there the source either throws a
    [SyntaxError] from [new RegExp] (a lone parenthesis, bracket, star, plus,
    question mark or backslash, for instance) or splits by the pattern's own
    meaning.  [None] therefore says nothing about what the source does. *)
Definition highlightText (text query : string) : option Highlighted :=
  if negb (truthy query) then Some (Unchanged text)
  else match split_query text query with
       | Some parts => Some (Parts (map (mark_part query) parts))
       | None => None
       end.

(** The rendered block: the [Paper] with its id, click argument and content.
    Where [bv_content] is [None] the model does not describe the element:
    the source may throw while rendering it, and then shows no block at all.
    Statements about what is on the page take a query without
    metacharacters, for which the content is always there. *)
Record BlockView := mkBlockView {
  dom_id : string;
  bv_language : Language;
  bv_block : Block;
  bv_highlighted : bool;
  bv_content : option Highlighted
}.

Definition render_block (block : Block) (l : Language) (highlighted : bool)
    (searchQuery : string) : BlockView :=
  {| dom_id := block_dom_id l block;
     bv_language := l;
     bv_block := block;
     bv_highlighted := highlighted;
     bv_content := highlightText (text block) searchQuery |}.

(** A non-negative integer in a template literal. *)
Definition number_to_string (n : N) : string :=
  NilEmpty.string_of_uint (N.to_uint n).

(** [n || d] for a number that may be missing: zero is falsy. *)
Definition number_or (n : option N) (d : N) : N :=
  match n with
  | Some k => if (k =? 0)%N then d else k
  | None => d
  end.

(** Truthiness of an optional boolean. *)
Definition flag (b : option bool) : bool :=
  match b with Some true => true | _ => false end.

(** [getBlockTypeLabel]. *)
Definition getBlockTypeLabel (block : Block) : string :=
  if flag (is_heading (metadata block)) then
    "H" ++ number_to_string (number_or (heading_level (metadata block)) 1)
  else if str_eq (type block) "table_cell" then "Table"
  else match list_level (metadata block) with
       | Some _ => "List"
       | None => "Paragraph"
       end.

(** The [variant] of the [Typography] holding the text. *)
Definition typography_variant (block : Block) : string :=
  if flag (is_heading (metadata block)) then
    "h" ++ number_to_string
             (N.min (number_or (heading_level (metadata block)) 1) 6)
  else "body1".

End BlockHighlighter.

(* ===================================================================== *)
(** * 6. components/ResultViewer.tsx                                      *)
(* ===================================================================== *)

Module ResultViewer.
Import BlockHighlighter.

(** The [useState] cells of the component. *)
Record State := mkState {
  arabicDoc : option StructuredDocument;
  englishDoc : option StructuredDocument;
  loading : bool;
  error : option string;
  searchQuery : string;
  filterType : string;
  highlightedBlockId : option string
}.

(** The state at mount. *)
Definition initial : State :=
  {| arabicDoc := None; englishDoc := None; loading := true; error := None;
     searchQuery := ""; filterType := "all"; highlightedBlockId := None |}.

(** The [.then] branch of the load effect ([result.arabic || null], ...). *)
Definition on_result (st : State) (result : JobResult) : State :=
  {| arabicDoc := arabic result; englishDoc := english result;
     loading := false; error := error st;
     searchQuery := searchQuery st; filterType := filterType st;
     highlightedBlockId := highlightedBlockId st |}.

(** The [.catch] branch of the load effect. *)
Definition on_failure (st : State) (message : string) : State :=
  {| arabicDoc := arabicDoc st; englishDoc := englishDoc st;
     loading := false; error := Some message;
     searchQuery := searchQuery st; filterType := filterType st;
     highlightedBlockId := highlightedBlockId st |}.

(** The two predicates handed to [Array.prototype.filter]. *)
Definition type_pred (filterType : string) (block : Block) : bool :=
  str_eq (type block) filterType.

Definition query_pred (query : string) (block : Block) : bool :=
  includes (toLowerCase (text block)) query.

(** [filterBlocks]. *)
Definition filterBlocks (st : State) (blocks : list Block) : list Block :=
  let filtered := blocks in
  let filtered :=
    if negb (str_eq (filterType st) "all")
    then List.filter (type_pred (filterType st)) filtered
    else filtered in
  let filtered :=
    if truthy (searchQuery st)
    then List.filter (query_pred (toLowerCase (searchQuery st))) filtered
    else filtered in
  filtered.

(** [highlightedBlockId === block.block_id] *)
Definition is_highlighted (st : State) (block : Block) : bool :=
  match highlightedBlockId st with
  | Some h => str_eq h (block_id block)
  | None => false
  end.

(** One rendered page: its heading number and its blocks. *)
Record PageView := mkPageView {
  pv_key : N;
  pv_number : N;
  pv_blocks : list BlockView
}.

(** [renderBlocks(doc, language)] for a document that is there. *)
Definition renderBlocks (st : State) (doc : StructuredDocument) (l : Language)
  : list PageView :=
  map (fun page =>
         {| pv_key := page_index page;
            pv_number := (page_index page + 1)%N;
            pv_blocks :=
              map (fun block =>
                     render_block block l (is_highlighted st block) (searchQuery st))
                  (filterBlocks st (blocks page)) |})
      (pages doc).

(** One of the two side-by-side panels. *)
Inductive Panel :=
| PanelDocument (pvs : list PageView)
| PanelNotice (message : string).

(** What the component returns. *)
Inductive View :=
| ViewLoading
| ViewError (message : string)
| ViewNoResults (message : string)
| ViewSideBySide (arabic_panel english_panel : Panel).

Definition panel (st : State) (doc : option StructuredDocument) (l : Language)
    (notice : string) : Panel :=
  match doc with
  | Some d => PanelDocument (renderBlocks st d l)
  | None => PanelNotice notice
  end.

(** Truthiness of a [string | null] cell and of a [StructuredDocument | null]
    cell. *)
Definition truthy_error (e : option string) : bool :=
  match e with Some m => truthy m | None => false end.

Definition present (d : option StructuredDocument) : bool :=
  match d with Some _ => true | None => false end.

(** The final [return]: search controls (not modelled) and the two panels. *)
Definition side_by_side (st : State) : View :=
  ViewSideBySide
    (panel st (arabicDoc st) ar "Arabic document not available")
    (panel st (englishDoc st) en "English document not available").

(** The chain of early returns of the component, then the viewer. *)
Definition render (st : State) : View :=
  if loading st then ViewLoading
  else if truthy_error (error st) then
    ViewError (match error st with Some m => m | None => "" end)
  else if negb (present (arabicDoc st)) && negb (present (englishDoc st)) then
    ViewNoResults "No results available for this job."
  else side_by_side st.

(** The elements carrying an [id], in document order. *)
Definition panel_elements (p : Panel) : list BlockView :=
  match p with
  | PanelDocument pvs => concat (map pv_blocks pvs)
  | PanelNotice _ => []
  end.

Definition elements (v : View) : list BlockView :=
  match v with
  | ViewSideBySide a e => panel_elements a ++ panel_elements e
  | _ => []
  end.

(** [document.getElementById]: the first element with that id, if any. *)
Definition getElementById (dom : list BlockView) (id : string) : option BlockView :=
  List.find (fun e => str_eq (dom_id e) id) dom.

(** [element?.scrollIntoView(...)]: the element scrolled to, when there is one. *)
Definition scrollIntoView (e : option BlockView) : list BlockView :=
  match e with Some x => [x] | None => [] end.

(** [handleBlockClick]: the next state and the elements scrolled into view. *)
Definition handleBlockClick (st : State) (blockId : string)
  : State * list BlockView :=
  let st' := {| arabicDoc := arabicDoc st; englishDoc := englishDoc st;
                loading := loading st; error := error st;
                searchQuery := searchQuery st; filterType := filterType st;
                highlightedBlockId := Some blockId |} in
  let dom := elements (render st) in
  let arabicElement := getElementById dom ("block-ar-" ++ blockId) in
  let englishElement := getElementById dom ("block-en-" ++ blockId) in
  (st', scrollIntoView arabicElement ++ scrollIntoView englishElement).

(** The [onClick] of a rendered block. *)
Definition click (st : State) (bv : BlockView) : State * list BlockView :=
  handleBlockClick st (block_id (bv_block bv)).

(** The blocks of a document, page after page. *)
Definition doc_blocks (d : option StructuredDocument) : list Block :=
  match d with
  | Some doc => concat (map blocks (pages doc))
  | None => []
  end.

(** The [Blocks] statistic of a document:
    [doc.pages.reduce((acc, p) => acc + p.blocks.length, 0)]. *)
Definition blocks_statistic (doc : StructuredDocument) : nat :=
  fold_left (fun acc p => (acc + length (blocks p))%nat) (pages doc) 0%nat.

End ResultViewer.

(* ===================================================================== *)
(** * 7. components/UploadPage.tsx                                        *)
(* ===================================================================== *)

Module UploadPage.

(** The fields of a browser [File] the component reads. *)
Record File := mkFile {
  name : string;
  size : N
}.

Record State := mkState {
  file : option File;
  uploading : bool;
  error : option string;
  ocrEngine : string
}.

(** [s.split(sep)] for a one-character separator. *)
Fixpoint split_on (sep : ascii) (s : string) : list string :=
  match s with
  | EmptyString => [EmptyString]
  | String c s' =>
      if Ascii.eqb c sep then EmptyString :: split_on sep s'
      else match split_on sep s' with
           | h :: t => String c h :: t
           | [] => [String c EmptyString]
           end
  end.

(** [Array.prototype.join]. *)
Fixpoint join (sep : string) (l : list string) : string :=
  match l with
  | [] => EmptyString
  | [x] => x
  | x :: l' => x ++ sep ++ join sep l'
  end.

Definition allowedTypes : list string :=
  [".pdf"; ".docx"; ".jpg"; ".jpeg"; ".png"; ".tiff"; ".tif"].

(** ['.' + selectedFile.name.split('.').pop()?.toLowerCase()] *)
Definition fileExt (f : File) : string :=
  "." ++ match option_map toLowerCase (last (split_on "." (name f))) with
         | Some e => e
         | None => "undefined"
         end.

(** [allowedTypes.includes(fileExt)] *)
Definition type_allowed (f : File) : bool :=
  existsb (str_eq (fileExt f)) allowedTypes.

Definition size_limit : N := 50 * 1024 * 1024.

Definition set_error (st : State) (e : option string) : State :=
  {| file := file st; uploading := uploading st; error := e;
     ocrEngine := ocrEngine st |}.

(** [handleFileSelect], given [event.target.files]. *)
Definition handleFileSelect (st : State) (files : list File) : State :=
  match head files with
  | Some selectedFile =>
      if negb (type_allowed selectedFile) then
        set_error st (Some ("File type not allowed. Allowed types: "
                            ++ join ", " allowedTypes)%string)
      else if (size_limit <? size selectedFile)%N then
        set_error st (Some "File size exceeds 50MB limit")
      else
        {| file := Some selectedFile; uploading := uploading st;
           error := None; ocrEngine := ocrEngine st |}
  | None => st
  end.

(** The state at mount. *)
Definition initial : State :=
  {| file := None; uploading := false; error := None; ocrEngine := "paddleocr" |}.

(** [handleDrop], given [event.dataTransfer.files]: the dropped files go
    through [handleFileSelect] when there is a first one. *)
Definition handleDrop (st : State) (files : list File) : State :=
  match head files with
  | Some _ => handleFileSelect st files
  | None => st
  end.

(** How [await createJob(...)] settles: the new job, or a thrown error with
    its optional [response.data.detail] and its [message]. *)
Inductive Outcome :=
| Created (job_id : string)
| Thrown (detail message : option string).

(** What [handleUpload] does to the outside world. *)
Inductive Effect :=
| CallCreateJob (f : File) (ocr_engine : string)
| Navigate (path : string).

(** [a || b] on optional strings: the first truthy one. *)
Definition first_truthy (a : option string) (b : string) : string :=
  match a with
  | Some s => if truthy s then s else b
  | None => b
  end.

(** [handleUpload], with the way the request settles. *)
Definition handleUpload (st : State) (o : Outcome) : State * list Effect :=
  match file st with
  | None => (st, [])
  | Some f =>
      match o with
      | Created id =>
          ({| file := file st; uploading := true; error := None;
              ocrEngine := ocrEngine st |},
           [CallCreateJob f (ocrEngine st); Navigate ("/job/" ++ id)])
      | Thrown detail message =>
          ({| file := file st; uploading := false;
              error := Some (first_truthy detail
                               (first_truthy message "Upload failed"));
              ocrEngine := ocrEngine st |},
           [CallCreateJob f (ocrEngine st)])
      end
  end.

(** [disabled={!file || uploading}] of the upload button. *)
Definition upload_disabled (st : State) : bool :=
  match file st with Some _ => uploading st | None => true end.

(** What the user and the network can do to the page. *)
Inductive Event :=
| SelectFiles (files : list File)
| DropFiles (files : list File)
| ChooseEngine (engine : string)
| ClickUpload (o : Outcome).

(** One event; a click on the disabled button reaches no handler. *)
Definition step (st : State) (ev : Event) : State * list Effect :=
  match ev with
  | SelectFiles files => (handleFileSelect st files, [])
  | DropFiles files => (handleDrop st files, [])
  | ChooseEngine e =>
      ({| file := file st; uploading := uploading st; error := error st;
          ocrEngine := e |}, [])
  | ClickUpload o =>
      if upload_disabled st then (st, []) else handleUpload st o
  end.

Fixpoint run (st : State) (evs : list Event) : State * list Effect :=
  match evs with
  | [] => (st, [])
  | ev :: evs' =>
      let '(st1, es1) := step st ev in
      let '(st2, es2) := run st1 evs' in
      (st2, es1 ++ es2)
  end.

(** The two checks of [handleFileSelect] on one file. *)
Definition valid (f : File) : bool :=
  type_allowed f && (size f <=? size_limit)%N.

End UploadPage.

(* ===================================================================== *)
(** * 7b. components/DownloadOptions.tsx                                  *)
(* ===================================================================== *)

Module DownloadOptions.
Import BlockHighlighter.

(** The [format] argument: ['json' | 'txt' | 'docx']. *)
Inductive Format := json | txt | docx.

Definition format_tag (f : Format) : string :=
  match f with json => "json" | txt => "txt" | docx => "docx" end.

Record State := mkState {
  anchorEl : option N;
  downloading : option string
}.

Definition handleClick (st : State) (target : N) : State :=
  {| anchorEl := Some target; downloading := downloading st |}.

Definition handleClose (st : State) : State :=
  {| anchorEl := None; downloading := downloading st |}.

(** [`${language}-${format}`] *)
Definition download_key (l : Language) (f : Format) : string :=
  lang_tag l ++ "-" ++ format_tag f.

(** The name given to the saved file. *)
Definition download_name (l : Language) (f : Format) : string :=
  let extension :=
    if str_eq (format_tag f) "json" then "json"
    else if str_eq (format_tag f) "txt" then "txt" else "docx" in
  let langLabel := if str_eq (lang_tag l) "ar" then "arabic" else "english" in
  "document_" ++ langLabel ++ "." ++ extension.

Inductive Effect :=
| Request (l : Language) (f : Format)
| CreateObjectURL
| AppendAnchor (download : string)
| ClickAnchor
| RevokeObjectURL
| RemoveAnchor
| ConsoleError
| Alert (message : string).

(** [handleDownload] up to the [await]. *)
Definition begin_download (st : State) (l : Language) (f : Format)
  : State * list Effect :=
  ({| anchorEl := anchorEl st; downloading := Some (download_key l f) |},
   [Request l f]).

(** [handleDownload] from the settled request on: [ok] tells whether the
    blob arrived; the [finally] block runs either way. *)
Definition finish_download (st : State) (l : Language) (f : Format) (ok : bool)
  : State * list Effect :=
  let body :=
    if ok then
      [CreateObjectURL; AppendAnchor (download_name l f); ClickAnchor;
       RevokeObjectURL; RemoveAnchor]
    else [ConsoleError; Alert "Download failed. Please try again."] in
  (handleClose {| anchorEl := anchorEl st; downloading := None |}, body).

Definition handleDownload (st : State) (l : Language) (f : Format) (ok : bool)
  : State * list Effect :=
  let '(st1, es1) := begin_download st l f in
  let '(st2, es2) := finish_download st1 l f ok in
  (st2, es1 ++ es2).

(** [disabled={downloading === '<l>-<f>'}] of a menu item. *)
Definition item_disabled (st : State) (l : Language) (f : Format) : bool :=
  match downloading st with
  | Some k => str_eq k (download_key l f)
  | None => false
  end.

(** [open={Boolean(anchorEl)}] of the menu. *)
Definition menu_open (st : State) : bool :=
  match anchorEl st with Some _ => true | None => false end.

Definition is_save (e : Effect) : bool :=
  match e with AppendAnchor _ | ClickAnchor => true | _ => false end.

End DownloadOptions.

(* ===================================================================== *)
(** * 8. The job lifecycle the status page observes                       *)
(* ===================================================================== *)

Module Lifecycle.

(** Modelled from the spec: the orchestrator that advances the stages runs on
    the server and is not among the sources.  Section 4.3: a stage goes from
    [pending] to [in_progress] to [completed]; the [ocr] stage may be marked
    [completed] without being run; a stage that has not completed may fail. *)
Inductive stage_step (skippable : bool) : string -> string -> Prop :=
| stage_stay s : stage_step skippable s s
| stage_start : stage_step skippable "pending" "in_progress"
| stage_finish : stage_step skippable "in_progress" "completed"
| stage_skip : skippable = true -> stage_step skippable "pending" "completed"
| stage_fail s : s = "pending" \/ s = "in_progress" ->
                 stage_step skippable s "failed".

(** Modelled from the spec: position of a status in the chain
    [queued -> extracting -> ocr -> translating -> completed] of section 4.3. *)
Definition status_rank (s : string) : option nat :=
  if str_eq s "queued" then Some 0%nat
  else if str_eq s "extracting" then Some 1%nat
  else if str_eq s "ocr" then Some 2%nat
  else if str_eq s "translating" then Some 3%nat
  else if str_eq s "completed" then Some 4%nat
  else None.

(** Modelled from the spec: the statuses other than [completed] and [failed]. *)
Definition nonterminal (s : string) : Prop :=
  exists n, status_rank s = Some n /\ (n < 4)%nat.

(** Modelled from the spec: section 4.3, the job-level status keeps its value
    or moves forward along the chain, and [failed] is reachable from every
    non-terminal status; nothing leaves [completed] or [failed]. *)
Inductive status_step : string -> string -> Prop :=
| status_stay s : nonterminal s -> status_step s s
| status_advance s s' n n' :
    status_rank s = Some n -> status_rank s' = Some n' -> (n < n')%nat ->
    status_step s s'
| status_fail s : nonterminal s -> status_step s "failed".

(** Some stage of the job is recorded as failed. *)
Definition stage_failed (j : Job) : Prop :=
  extraction (processing_stages j) = "failed" \/
  ocr (processing_stages j) = "failed" \/
  translation (processing_stages j) = "failed".

(** Modelled from the spec: two successive snapshots of one job.  The status
    and each stage move as above, and (section 4.3) a snapshot with a failed
    stage has status [failed]. *)
Definition job_step (j j' : Job) : Prop :=
  job_id j' = job_id j /\
  status_step (status j) (status j') /\
  stage_step false (extraction (processing_stages j))
                   (extraction (processing_stages j')) /\
  stage_step true (ocr (processing_stages j)) (ocr (processing_stages j')) /\
  stage_step false (translation (processing_stages j))
                   (translation (processing_stages j')) /\
  (stage_failed j' -> status j' = "failed").



End Lifecycle.

(* ===================================================================== *)
(** * 9. Auxiliary definitions for the proofs                             *)
(* ===================================================================== *)

(** What [add_stage] distinguishes in a stage string. *)
Inductive StageClass := SCompleted | SInProgress | SOther.

Definition classify (s : string) : StageClass :=
  if str_eq s "completed" then SCompleted
  else if str_eq s "in_progress" then SInProgress
  else SOther.

Definition add_class (p : float) (c : StageClass) : float :=
  match c with
  | SCompleted => (p + JobStatusPage.completed_share)%float
  | SInProgress => (p + JobStatusPage.in_progress_share)%float
  | SOther => p
  end.

(** The progress of a job that is neither completed nor failed. *)
Definition class_progress (c1 c2 c3 : StageClass) : float :=
  JobStatusPage.Math_min
    (add_class (add_class (add_class 0%float c1) c2) c3) 99%float.


(** [SOther <= SInProgress <= SCompleted]. *)
Definition class_le (a b : StageClass) : bool :=
  match a, b with
  | SOther, _ | SInProgress, SInProgress | _, SCompleted => true
  | _, _ => false
  end.





(** A job is running when it is neither completed nor failed. *)
Definition running (j : Job) : Prop :=
  status j <> "completed" /\ status j <> "failed".

(** Concrete jobs used below: extraction under way, and the same job after
    the extraction has failed. *)
Definition job_at (st e o t : string) (msg : option string) : Job :=
  {| job_id := "job-1"; status := st; original_filename := "scan.pdf";
     created_at := "2024-01-01T00:00:00"; updated_at := "2024-01-01T00:00:00";
     stats := None; error_message := msg;
     processing_stages := {| extraction := e; ocr := o; translation := t |} |}.

Definition job_extracting : Job :=
  job_at "extracting" "in_progress" "pending" "pending" None.

Definition job_extraction_failed : Job :=
  job_at "failed" "failed" "pending" "pending" (Some "corrupt document").

Definition job_ocr : Job :=
  job_at "ocr" "completed" "in_progress" "pending" None.


(** The status values [getStatusColor] names in a [case]. *)
Definition info_statuses : list string :=
  ["processing"; "extracting"; "ocr"; "translating"].

Definition all_callbacks : useJobPolling.Options :=
  {| useJobPolling.onUpdate := true; useJobPolling.onComplete := true;
     useJobPolling.onError := true |}.

(** The [onUpdate] call every settled request starts with. *)
Definition update_call (o : useJobPolling.Options) (j : Job)
  : list useJobPolling.Effect :=
  if useJobPolling.onUpdate o then [useJobPolling.CallOnUpdate j] else [].

(** The extension of a file name in the usual sense, following the words of
    the specification rather than the code: the text after the last dot of a
    name that has one. *)
Fixpoint extension (s : string) : option string :=
  match s with
  | EmptyString => None
  | String c s' =>
      match extension s' with
      | Some e => Some e
      | None => if Ascii.eqb c "." then Some s' else None
      end
  end.

(** Acceptance as the specification words it: the lowercased extension is one
    of the allowed types and the size is within the limit. *)
Definition accepted_by_extension (f : UploadPage.File) : bool :=
  match extension (UploadPage.name f) with
  | Some e => existsb (str_eq ("." ++ toLowerCase e)) UploadPage.allowedTypes
  | None => false
  end && (UploadPage.size f <=? UploadPage.size_limit)%N.

(** The state [handleFileSelect] produces when it accepts [f]. *)
Definition accepted (st : UploadPage.State) (f : UploadPage.File)
  : UploadPage.State :=
  {| UploadPage.file := Some f; UploadPage.uploading := UploadPage.uploading st;
     UploadPage.error := None; UploadPage.ocrEngine := UploadPage.ocrEngine st |}.

(** A file without an extension whose whole name spells an allowed type. *)
Definition extensionless_file : UploadPage.File :=
  {| UploadPage.name := "pdf"; UploadPage.size := 1024 |}.

Definition upload_start : UploadPage.State :=
  {| UploadPage.file := None; UploadPage.uploading := false;
     UploadPage.error := None; UploadPage.ocrEngine := "paddleocr" |}.

(** The document shown in the panel of a language. *)
Definition doc_of (st : ResultViewer.State) (l : BlockHighlighter.Language)
  : option StructuredDocument :=
  match l with
  | BlockHighlighter.ar => ResultViewer.arabicDoc st
  | BlockHighlighter.en => ResultViewer.englishDoc st
  end.

(** The blocks of a document that pass the active filter, page after page. *)
Definition shown_blocks (st : ResultViewer.State)
    (d : option StructuredDocument) : list Block :=
  match d with
  | Some doc =>
      concat (map (fun p => ResultViewer.filterBlocks st (blocks p)) (pages doc))
  | None => []
  end.

(** The element [renderBlocks] produces for one block. *)
Definition shown_block (st : ResultViewer.State) (l : BlockHighlighter.Language)
    (b : Block) : BlockHighlighter.BlockView :=
  BlockHighlighter.render_block b l (ResultViewer.is_highlighted st b)
                                (ResultViewer.searchQuery st).

(** The viewer (not the spinner or the error) is on screen. *)
Definition past_loading (st : ResultViewer.State) : Prop :=
  ResultViewer.loading st = false /\ ResultViewer.error st = None.

(** The element of language [l] for block id [b] is in the page. *)
Definition rendered (st : ResultViewer.State) (l : BlockHighlighter.Language)
    (b : string) : Prop :=
  exists e, In e (ResultViewer.elements (ResultViewer.render st)) /\
            BlockHighlighter.bv_language e = l /\
            block_id (BlockHighlighter.bv_block e) = b.

(** The element of language [l] for block id [b] was scrolled into view. *)
Definition scrolled_to (targets : list BlockHighlighter.BlockView)
    (l : BlockHighlighter.Language) (b : string) : Prop :=
  exists e, In e targets /\
            BlockHighlighter.bv_language e = l /\
            BlockHighlighter.dom_id e =
              ("block-" ++ BlockHighlighter.lang_tag l ++ "-" ++ b)%string.

(** The block ids of a document. *)
Definition block_ids (d : option StructuredDocument) : list string :=
  map block_id (ResultViewer.doc_blocks d).

(** A one-page, one-block document pair and a viewer searching for a word of
    the translation. *)
Definition plain_metadata : BlockMetadata :=
  {| is_heading := None; heading_level := None; list_level := None;
     table := None; confidence := None |}.

Definition one_block_doc (lang txt : string) : StructuredDocument :=
  {| document_id := "doc-1"; language := lang;
     pages := [ {| page_index := 0;
                   blocks := [ {| block_id := "b1"; type := "paragraph";
                                  metadata := plain_metadata; text := txt |} ] |} ];
     doc_metadata := {| source_filename := "scan.pdf"; doc_total_pages := 1;
                        extraction_timestamp := "2024-01-01T00:00:00";
                        ocr_engine := None |} |}.

Definition arabic_sample : StructuredDocument := one_block_doc "ar" "marhaban".
Definition english_sample : StructuredDocument := one_block_doc "en" "Hello there".

Definition both_documents : JobResult :=
  {| result_job_id := "job-1"; arabic := Some arabic_sample;
     english := Some english_sample |}.

Definition arabic_only : JobResult :=
  {| result_job_id := "job-1"; arabic := Some arabic_sample; english := None |}.

Definition with_query (st : ResultViewer.State) (q : string) : ResultViewer.State :=
  {| ResultViewer.arabicDoc := ResultViewer.arabicDoc st;
     ResultViewer.englishDoc := ResultViewer.englishDoc st;
     ResultViewer.loading := ResultViewer.loading st;
     ResultViewer.error := ResultViewer.error st;
     ResultViewer.searchQuery := q;
     ResultViewer.filterType := ResultViewer.filterType st;
     ResultViewer.highlightedBlockId := ResultViewer.highlightedBlockId st |}.

Definition searching_hello : ResultViewer.State :=
  with_query (ResultViewer.on_result ResultViewer.initial both_documents) "hello".

(** The viewer state for a loaded result, with whatever the user has typed
    in the search box, picked as type filter and clicked since. *)
Definition viewing (r : JobResult) (q f : string) (h : option string)
  : ResultViewer.State :=
  {| ResultViewer.arabicDoc := arabic r;
     ResultViewer.englishDoc := english r;
     ResultViewer.loading := false;
     ResultViewer.error := None;
     ResultViewer.searchQuery := q;
     ResultViewer.filterType := f;
     ResultViewer.highlightedBlockId := h |}.

(** The blocks a rendered panel shows, page by page. *)
Definition blocks_by_page (pvs : list ResultViewer.PageView) : list (list Block) :=
  map (fun pv => map BlockHighlighter.bv_block (ResultViewer.pv_blocks pv)) pvs.

Definition lang_eqb (a b : BlockHighlighter.Language) : bool :=
  match a, b with
  | BlockHighlighter.ar, BlockHighlighter.ar
  | BlockHighlighter.en, BlockHighlighter.en => true
  | _, _ => false
  end.



(** A part is marked exactly when it equals the query, case ignored. *)
Definition marked_iff_equal (query : string) (p : BlockHighlighter.Part) : Prop :=
  match p with
  | BlockHighlighter.Mark s => toLowerCase s = toLowerCase query
  | BlockHighlighter.Plain s => toLowerCase s <> toLowerCase query
  end.

Definition all_ascii : list ascii := map ascii_of_nat (seq 0 256).

(** Upper-casing and lower-casing identify the same pairs of characters. *)
Definition case_folds_agree : bool :=
  forallb (fun a =>
    forallb (fun c =>
      Bool.eqb (Ascii.eqb (BlockHighlighter.canonicalize a)
                          (BlockHighlighter.canonicalize c))
               (Ascii.eqb (lower_char a) (lower_char c)))
      all_ascii) all_ascii.

(** The callbacks made for a settled request whose job is still running. *)
Definition running_calls (o : useJobPolling.Options)
    (r : useJobPolling.Response) : list useJobPolling.Effect :=
  match r with
  | useJobPolling.Resolved j => update_call o j
  | useJobPolling.Rejected _ => []
  end.

(** The side-by-side viewer, rather than an early return, is on screen. *)
Definition viewer_on (st : ResultViewer.State) : bool :=
  negb (ResultViewer.loading st)
  && negb (ResultViewer.truthy_error (ResultViewer.error st))
  && negb (negb (ResultViewer.present (ResultViewer.arabicDoc st))
           && negb (ResultViewer.present (ResultViewer.englishDoc st))).

(** The part of a file name the extension check looks at. *)
Definition last_segment (n : string) : string :=
  match extension n with Some e => e | None => n end.

(** Lower-casing maps no character to or from the dot, and lower-casing
    twice is lower-casing once. *)
Definition lower_char_checks : bool :=
  forallb (fun c =>
    Bool.eqb (Ascii.eqb (lower_char c) ".") (Ascii.eqb c ".")
    && Ascii.eqb (lower_char (lower_char c)) (lower_char c)) all_ascii.

(** The stored file, if any, passed both checks. *)
Definition stored_file_valid (st : UploadPage.State) : Prop :=
  forall f, UploadPage.file st = Some f -> UploadPage.valid f = true.

Definition type_error_message : string :=
  "File type not allowed. Allowed types: .pdf, .docx, .jpg, .jpeg, .png, .tiff, .tif".

(** The element the viewer is to draw for block [b] in the panel of language
    [l]: its id, its block, whether it is the highlighted one, and its text
    as [highlightText] returns it. *)
Definition expected_element (st : ResultViewer.State)
    (l : BlockHighlighter.Language) (b : Block) : BlockHighlighter.BlockView :=
  {| BlockHighlighter.dom_id :=
       ("block-" ++ BlockHighlighter.lang_tag l ++ "-" ++ block_id b)%string;
     BlockHighlighter.bv_language := l;
     BlockHighlighter.bv_block := b;
     BlockHighlighter.bv_highlighted :=
       match ResultViewer.highlightedBlockId st with
       | Some h => str_eq h (block_id b)
       | None => false
       end;
     BlockHighlighter.bv_content :=
       BlockHighlighter.highlightText (text b) (ResultViewer.searchQuery st) |}.

(** The page the viewer is to draw for [pg], showing the blocks [kept]. *)
Definition expected_page (st : ResultViewer.State)
    (l : BlockHighlighter.Language) (kept : list Block -> list Block)
    (pg : Page) : ResultViewer.PageView :=
  {| ResultViewer.pv_key := page_index pg;
     ResultViewer.pv_number := (page_index pg + 1)%N;
     ResultViewer.pv_blocks := map (expected_element st l) (kept (blocks pg)) |}.

(** Only the Arabic document is there, and the user searches for [zzz]. *)
Definition searching_zzz : ResultViewer.State :=
  viewing arabic_only "zzz" "all" None.



(** A falsy optional string: absent or empty. *)
Definition falsy (o : option string) : Prop := o = None \/ o = Some ""%string.

(* ===================================================================== *)
(** * 9b. JobStatusPage mounted: the page and the hook together           *)
(* ===================================================================== *)

Module StatusPage.
Import useJobPolling.

(** The callbacks [JobStatusPage] hands to the hook: all three, each written
    inline in the component body. *)
Definition callbacks : Options :=
  {| onUpdate := true; onComplete := true; onError := true |}.

(** The mounted page between two events: the route parameter, the state
    cells [job] and [error], the hook's [intervalRef.current], and the id the
    next [setInterval] returns. *)
Record Mounted := mkMounted {
  jobId : string;
  job : option Job;
  error : option string;
  intervalRef : option N;
  next_timer : N
}.

(** What the page does to the outside world. *)
Inductive Action :=
| Hook (e : Effect)
| GetJob
| SetInterval (timer : N)
| CleanupClear (timer : N)
| NavigateLater.

Definition is_request (a : Action) : bool :=
  match a with GetJob => true | _ => false end.

(** One callback of the page run on its state: [setJob(updatedJob)],
    [setJob(completedJob)] with the delayed navigation, [setError(message)].
    The flag tells whether a state cell received a new value, so that React
    renders again: a job parsed from a response is always a new object, a
    string is new when it differs. *)
Definition call (m : Mounted) (e : Effect) : Mounted * bool * list Action :=
  match e with
  | CallOnUpdate j =>
      ({| jobId := jobId m; job := Some j; error := error m;
          intervalRef := intervalRef m; next_timer := next_timer m |},
       true, [])
  | CallOnComplete j =>
      ({| jobId := jobId m; job := Some j; error := error m;
          intervalRef := intervalRef m; next_timer := next_timer m |},
       true, [NavigateLater])
  | CallOnError msg =>
      ({| jobId := jobId m; job := job m; error := Some msg;
          intervalRef := intervalRef m; next_timer := next_timer m |},
       negb (match error m with Some old => str_eq old msg | None => false end),
       [])
  | ClearInterval _ => (m, false, [])
  end.

Fixpoint calls (m : Mounted) (es : list Effect) : Mounted * bool * list Action :=
  match es with
  | [] => (m, false, [])
  | e :: es' =>
      let '(m1, c1, a1) := call m e in
      let '(m2, c2, a2) := calls m1 es' in
      (m2, c1 || c2, a1 ++ a2)
  end.

(** After a render both effects run again, because the inline callbacks and
    the [stopPolling] the hook returns are new function objects in every
    render and sit in the dependency arrays.  React runs the cleanups first
    (the hook's [clearInterval], then the page's [stopPolling()]), then the
    bodies: the hook's [poll()] and [setInterval], then the page's own
    [getJob(jobId)].  Nothing is started without a job id. *)
Definition commit (m : Mounted) : Mounted * list Action :=
  let hook_cleanup :=
    match intervalRef m with Some t => [CleanupClear t] | None => [] end in
  let '(ref1, page_cleanup) := stopPolling (intervalRef m) in
  if truthy (jobId m) then
    ({| jobId := jobId m; job := job m; error := error m;
        intervalRef := Some (next_timer m);
        next_timer := (next_timer m + 1)%N |},
     hook_cleanup ++ map Hook page_cleanup
     ++ [GetJob; SetInterval (next_timer m); GetJob])
  else
    ({| jobId := jobId m; job := job m; error := error m;
        intervalRef := ref1; next_timer := next_timer m |},
     hook_cleanup ++ map Hook page_cleanup).

(** A request made by [poll] settles: [poll] runs to its end with the page's
    callbacks, and if they changed the state the page renders again. *)
Definition poll_settles (m : Mounted) (r : Response) : Mounted * list Action :=
  let '(ref1, es) := poll callbacks (intervalRef m) r in
  let '(m1, changed, acts) :=
    calls {| jobId := jobId m; job := job m; error := error m;
             intervalRef := ref1; next_timer := next_timer m |} es in
  if changed then
    let '(m2, acts2) := commit m1 in (m2, map Hook es ++ acts ++ acts2)
  else (m1, map Hook es ++ acts).

Fixpoint polls_settle (m : Mounted) (rs : list Response)
  : Mounted * list Action :=
  match rs with
  | [] => (m, [])
  | r :: rs' =>
      let '(m1, a1) := poll_settles m r in
      let '(m2, a2) := polls_settle m1 rs' in
      (m2, a1 ++ a2)
  end.

End StatusPage.

(** The status page of job [job-1] while its interval 1 is running, and the
    job after its extraction has failed. *)
Definition page_polling : StatusPage.Mounted :=
  {| StatusPage.jobId := "job-1"; StatusPage.job := Some job_extracting;
     StatusPage.error := None; StatusPage.intervalRef := Some 1%N;
     StatusPage.next_timer := 2%N |}.

(* ===================================================================== *)
(** * 10. Progress reporting (JobStatusPage)                              *)
(* ===================================================================== *)

Section Progress.
Import JobStatusPage.

Lemma str_eq_true (a b : string) : str_eq a b = true <-> a = b.
Proof. apply String.eqb_eq. Qed.

Lemma str_eq_false (a b : string) : str_eq a b = false <-> a <> b.
Proof. apply String.eqb_neq. Qed.

Lemma add_stage_classify (p : float) (s : string) :
  add_stage p s = add_class p (classify s).
Proof.
  unfold add_stage, classify.
  destruct (str_eq s "completed"); [reflexivity|].
  destruct (str_eq s "in_progress"); reflexivity.
Qed.

Lemma getProgress_running (j : Job) :
  running j ->
  getProgress (Some j) =
  class_progress (classify (extraction (processing_stages j)))
                 (classify (ocr (processing_stages j)))
                 (classify (translation (processing_stages j))).
Proof.
  intros [Hc Hf]. unfold getProgress.
  apply str_eq_false in Hc, Hf. rewrite Hc, Hf.
  unfold stages_of, class_progress. cbn [fold_left].
  rewrite !add_stage_classify. reflexivity.
Qed.

Lemma class_progress_le_99 (c1 c2 c3 : StageClass) :
  PrimFloat.leb (class_progress c1 c2 c3) 99%float = true.
Proof. destruct c1, c2, c3; vm_compute; reflexivity. Qed.

Lemma class_progress_lt_100 (c1 c2 c3 : StageClass) :
  PrimFloat.ltb (class_progress c1 c2 c3) 100%float = true.
Proof. destruct c1, c2, c3; vm_compute; reflexivity. Qed.

Lemma class_progress_neq_100 (c1 c2 c3 : StageClass) :
  class_progress c1 c2 c3 <> 100%float.
Proof.
  intros H. pose proof (class_progress_lt_100 c1 c2 c3) as L.
  rewrite H in L. vm_compute in L. discriminate.
Qed.

(** C1: a job that is not completed reports strictly less than 100: a failed
    job reports 0, every other non-completed job at most 99; and
    [getProgress] returns 100 exactly when the status is [completed]. *)
Theorem getProgress_below_100_until_completed (j : Job) :
  (status j <> "completed" ->
     PrimFloat.ltb (getProgress (Some j)) 100%float = true) /\
  (status j = "failed" -> getProgress (Some j) = 0%float) /\
  (running j -> PrimFloat.leb (getProgress (Some j)) 99%float = true) /\
  (getProgress (Some j) = 100%float <-> status j = "completed").
Proof.
  assert (F : status j = "failed" -> getProgress (Some j) = 0%float).
  { intros E. unfold getProgress. rewrite E. reflexivity. }
  repeat split.
  - intros Hc. destruct (String.eqb_spec (status j) "failed") as [E|E].
    + rewrite (F E). vm_compute. reflexivity.
    + rewrite getProgress_running by (split; assumption).
      apply class_progress_lt_100.
  - exact F.
  - intros R. rewrite getProgress_running by exact R.
    apply class_progress_le_99.
  - intros H. destruct (String.eqb_spec (status j) "completed") as [E|E];
      [exact E|exfalso].
    destruct (String.eqb_spec (status j) "failed") as [E'|E'].
    + rewrite (F E') in H.
      apply (f_equal (fun x => PrimFloat.eqb x 100%float)) in H.
      vm_compute in H. discriminate.
    + rewrite getProgress_running in H by (split; assumption).
      exact (class_progress_neq_100 _ _ _ H).
  - intros E. unfold getProgress. rewrite E. reflexivity.
Qed.

Lemma getProgress_below_100_witness :
  status job_extracting <> "completed" /\
  PrimFloat.ltb (getProgress (Some job_extracting)) 100%float = true.
Proof.
  split; [discriminate|].
  apply (proj1 (getProgress_below_100_until_completed job_extracting)).
  discriminate.
Defined.








End Progress.

(* ===================================================================== *)
(** * 11. Progress along the job lifecycle                                *)
(* ===================================================================== *)

Section ProgressOverTime.
Import JobStatusPage Lifecycle.

Lemma class_le_refl (c : StageClass) : class_le c c = true.
Proof. destruct c; reflexivity. Qed.

Lemma stage_step_class (sk : bool) (s s' : string) :
  stage_step sk s s' -> s' <> "failed" ->
  class_le (classify s) (classify s') = true.
Proof.
  intros H NF. destruct H as [s| | |_|s _].
  - apply class_le_refl.
  - reflexivity.
  - reflexivity.
  - reflexivity.
  - contradiction.
Qed.

Lemma class_progress_mono (c1 c2 c3 d1 d2 d3 : StageClass) :
  class_le c1 d1 = true -> class_le c2 d2 = true -> class_le c3 d3 = true ->
  PrimFloat.leb (class_progress c1 c2 c3) (class_progress d1 d2 d3) = true.
Proof.
  destruct c1, d1; try discriminate; intros _;
  destruct c2, d2; try discriminate; intros _;
  destruct c3, d3; try discriminate; intros _;
  vm_compute; reflexivity.
Qed.

Lemma nonterminal_running (j : Job) : nonterminal (status j) -> running j.
Proof.
  intros (n & E & L). split; intros C; rewrite C in E; vm_compute in E.
  - injection E as <-. lia.
  - discriminate.
Qed.

Lemma rank_completed (s : string) (n : nat) :
  status_rank s = Some n -> s = "completed" \/ (n < 4)%nat.
Proof.
  unfold status_rank.
  repeat match goal with
         | |- context [str_eq s ?c] =>
             destruct (str_eq s c) eqn:?; [intros [= <-]; right; lia|]
         end.
  destruct (str_eq s "completed") eqn:E; [|discriminate].
  intros _. left. apply str_eq_true, E.
Qed.

Lemma status_step_cases (s s' : string) :
  status_step s s' -> s' <> "failed" ->
  nonterminal s /\ (s' = "completed" \/ nonterminal s').
Proof.
  intros H NF. destruct H as [s N|s s' n n' E E' L|s N].
  - split; [exact N|right; exact N].
  - destruct (rank_completed _ _ E') as [C|L'].
    + split; [|left; exact C].
      exists n. split; [exact E|].
      rewrite C in E'. vm_compute in E'. injection E' as <-. exact L.
    + split; [exists n; split; [exact E|lia]|].
      right. exists n'. split; assumption.
  - contradiction.
Qed.

Lemma getProgress_le_100 (j : Job) :
  PrimFloat.leb (getProgress (Some j)) 100%float = true.
Proof.
  unfold getProgress.
  destruct (str_eq (status j) "completed"); [vm_compute; reflexivity|].
  destruct (str_eq (status j) "failed"); [vm_compute; reflexivity|].
  unfold stages_of. cbn [fold_left]. rewrite !add_stage_classify.
  generalize (classify (extraction (processing_stages j)))
             (classify (ocr (processing_stages j)))
             (classify (translation (processing_stages j))).
  intros c1 c2 c3. destruct c1, c2, c3; vm_compute; reflexivity.
Qed.

(** C2, as the specification words it, fails: from a job whose extraction is
    under way (progress 11.11) the step to [failed] reports 0. *)
Lemma progress_drops_on_failure :
  job_step job_extracting job_extraction_failed /\
  PrimFloat.leb (getProgress (Some job_extracting))
                (getProgress (Some job_extraction_failed)) = false /\
  PrimFloat.ltb (getProgress (Some job_extraction_failed))
                (getProgress (Some job_extracting)) = true.
Proof.
  split; [|split; vm_compute; reflexivity].
  unfold job_step. cbn.
  split; [reflexivity|].
  split. { apply status_fail. exists 1%nat. split; [reflexivity|lia]. }
  split. { apply stage_fail. right. reflexivity. }
  split. { apply stage_stay. }
  split. { apply stage_stay. }
  intros _. reflexivity.
Qed.

(** C2, amended: along every step of the lifecycle whose later snapshot is
    not failed the reported progress does not decrease; a snapshot with
    status [failed] reports 0. *)
Theorem getProgress_monotone_unless_failed (j j' : Job) :
  job_step j j' ->
  (status j' <> "failed" ->
     PrimFloat.leb (getProgress (Some j)) (getProgress (Some j')) = true) /\
  (status j' = "failed" -> getProgress (Some j') = 0%float).
Proof.
  intros (_ & Hst & He & Ho & Ht & Hcons). split.
  - intros NF.
    destruct (status_step_cases _ _ Hst NF) as [N T].
    assert (Rj : running j /\ (status j' = "completed" \/ running j')).
    { split; [apply nonterminal_running, N|].
      destruct T as [C|N']; [left; exact C|right; apply nonterminal_running, N']. }
    destruct Rj as [R [C|R']].
    + replace (getProgress (Some j')) with 100%float
        by (unfold getProgress; rewrite C; reflexivity).
      apply getProgress_le_100.
    + rewrite (getProgress_running j R), (getProgress_running j' R').
      apply class_progress_mono; eapply stage_step_class; try eassumption;
        intros F; apply NF, Hcons; unfold stage_failed; tauto.
  - intros F. unfold getProgress. rewrite F. reflexivity.
Qed.

Lemma getProgress_monotone_witness :
  job_step job_extracting job_ocr /\
  PrimFloat.leb (getProgress (Some job_extracting))
                (getProgress (Some job_ocr)) = true.
Proof.
  assert (S : job_step job_extracting job_ocr).
  { unfold job_step. cbn.
    split; [reflexivity|].
    split. { eapply (status_advance _ _ 1 2); [reflexivity|reflexivity|lia]. }
    split. { apply stage_finish. }
    split. { apply stage_start. }
    split. { apply stage_stay. }
    intros [F|[F|F]]; discriminate F. }
  split; [exact S|].
  apply (proj1 (getProgress_monotone_unless_failed _ _ S)). discriminate.
Defined.

End ProgressOverTime.

(* ===================================================================== *)
(** * 12. The status enumeration (types, getStatusColor)                  *)
(* ===================================================================== *)

Section StatusValues.
Import JobStatusPage.

(** Whatever string the status is, [getStatusColor] gives it exactly one of
    four colours: [success] exactly for
    [completed], [error] exactly for [failed], [info] exactly for
    [processing], [extracting], [ocr] and [translating], and [default] for
    every other string; each of the six listed values has its colour, with
    [queued] falling to [default]. *)
Theorem getStatusColor_classifies (s : string) :
  (getStatusColor s = "success" <-> s = "completed") /\
  (getStatusColor s = "error" <-> s = "failed") /\
  (getStatusColor s = "info" <-> In s info_statuses) /\
  (getStatusColor s = "default" <->
     s <> "completed" /\ s <> "failed" /\ ~ In s info_statuses) /\
  In (getStatusColor s) ["success"; "error"; "info"; "default"] /\
  getStatusColor "queued" = "default".
Proof.
  unfold getStatusColor, info_statuses, str_eq.
  destruct (String.eqb_spec s "completed") as [->|N1].
  { cbn. intuition (try discriminate; auto). }
  destruct (String.eqb_spec s "failed") as [->|N2].
  { cbn. intuition (try discriminate; auto). }
  destruct (String.eqb_spec s "processing") as [->|N3].
  { cbn. intuition (try discriminate; auto). }
  destruct (String.eqb_spec s "extracting") as [->|N4].
  { cbn. intuition (try discriminate; auto). }
  destruct (String.eqb_spec s "ocr") as [->|N5].
  { cbn. intuition (try discriminate; auto). }
  destruct (String.eqb_spec s "translating") as [->|N6].
  { cbn. intuition (try discriminate; auto). }
  cbn. intuition (try discriminate; try congruence; auto).
Qed.






End StatusValues.

(* ===================================================================== *)
(** * 13. Polling (useJobPolling)                                         *)
(* ===================================================================== *)

Section Polling.
Import useJobPolling.

Lemma or_default_present (m d : string) :
  m <> "" -> or_default (Some m) d = m.
Proof.
  intros N. unfold or_default, truthy.
  destruct (String.eqb_spec m ""); [contradiction|reflexivity].
Qed.

Lemma or_default_empty (d : string) : or_default (Some "") d = d.
Proof. reflexivity. Qed.

Lemma poll_failed (o : Options) (t : N) (j : Job) :
  status j = "failed" ->
  poll o (Some t) (Resolved j) =
  (None, update_call o j ++ [ClearInterval t] ++
         (if onError o
          then [CallOnError (or_default (error_message j) "Job failed")]
          else [])).
Proof.
  intros E. unfold poll, update_call. rewrite E. cbn.
  destruct (onUpdate o), (onError o); reflexivity.
Qed.

Lemma poll_completed (o : Options) (t : N) (j : Job) :
  status j = "completed" ->
  poll o (Some t) (Resolved j) =
  (None, update_call o j ++ [ClearInterval t] ++
         (if onComplete o then [CallOnComplete j] else [])).
Proof.
  intros E. unfold poll, update_call. rewrite E. cbn.
  destruct (onUpdate o), (onComplete o); reflexivity.
Qed.

Lemma poll_running (o : Options) (ref : option N) (j : Job) :
  running j -> poll o ref (Resolved j) = (ref, update_call o j).
Proof.
  intros [Hc Hf]. unfold poll, update_call.
  apply String.eqb_neq in Hc, Hf. unfold str_eq. rewrite Hc, Hf. reflexivity.
Qed.

Lemma run_polls_stopped (o : Options) (rs : list Response) :
  run_polls o None rs = (None, []).
Proof. destruct rs; reflexivity. Qed.

(** Within one run of the effect, a poll that returns a failed job clears
    the interval and calls [onError] with the job's error message when there
    is one (with [Job failed] otherwise); a poll that returns a completed job
    clears the interval and calls [onComplete] with the job; in both cases no
    later tick of that interval polls again.  For every other status the
    interval is kept, [onUpdate] is the only callback called, and the next
    tick polls again. *)
Theorem poll_stops_on_terminal_status (o : Options) (t : N) (j : Job)
    (rs : list Response) :
  (status j = "failed" ->
     poll o (Some t) (Resolved j) =
       (None, update_call o j ++ [ClearInterval t] ++
              (if onError o
               then [CallOnError (or_default (error_message j) "Job failed")]
               else [])) /\
     (forall m, error_message j = Some m -> m <> "" ->
        or_default (error_message j) "Job failed" = m) /\
     (error_message j = None ->
        or_default (error_message j) "Job failed" = "Job failed") /\
     run_polls o (Some t) (Resolved j :: rs) = poll o (Some t) (Resolved j)) /\
  (status j = "completed" ->
     poll o (Some t) (Resolved j) =
       (None, update_call o j ++ [ClearInterval t] ++
              (if onComplete o then [CallOnComplete j] else [])) /\
     run_polls o (Some t) (Resolved j :: rs) = poll o (Some t) (Resolved j)) /\
  (running j ->
     poll o (Some t) (Resolved j) = (Some t, update_call o j) /\
     run_polls o (Some t) (Resolved j :: rs) =
       (fst (run_polls o (Some t) rs),
        update_call o j ++ snd (run_polls o (Some t) rs))).
Proof.
  split; [|split].
  - intros E. pose proof (poll_failed o t j E) as P.
    split; [exact P|]. split; [|split].
    + intros m -> N. apply or_default_present, N.
    + intros ->. reflexivity.
    + cbn [run_polls]. rewrite P, run_polls_stopped.
      now rewrite app_nil_r.
  - intros E. pose proof (poll_completed o t j E) as P.
    split; [exact P|].
    cbn [run_polls]. rewrite P, run_polls_stopped. now rewrite app_nil_r.
  - intros R. pose proof (poll_running o (Some t) j R) as P.
    split; [exact P|].
    cbn [run_polls]. rewrite P.
    destruct (run_polls o (Some t) rs) as [r es]. reflexivity.
Qed.

Lemma poll_stops_witness :
  status job_extraction_failed = "failed" /\
  run_polls all_callbacks (Some 7%N)
    [Resolved job_extracting; Resolved job_extraction_failed;
     Resolved job_extracting] =
  (None, [CallOnUpdate job_extracting;
          CallOnUpdate job_extraction_failed;
          ClearInterval 7%N;
          CallOnError "corrupt document"]).
Proof.
  split; [reflexivity|].
  assert (R : running job_extracting) by (split; discriminate).
  destruct (poll_stops_on_terminal_status all_callbacks 7%N job_extracting
              [Resolved job_extraction_failed; Resolved job_extracting])
    as (_ & _ & Hrun).
  destruct (Hrun R) as [_ ->].
  destruct (poll_stops_on_terminal_status all_callbacks 7%N
              job_extraction_failed [Resolved job_extracting])
    as (Hfail & _ & _).
  destruct (Hfail eq_refl) as (Hp & _ & _ & ->).
  rewrite Hp. reflexivity.
Defined.

Lemma terminal_cases (j : Job) :
  terminal j = true <-> status j = "completed" \/ status j = "failed".
Proof.
  unfold terminal. rewrite orb_true_iff, !str_eq_true. reflexivity.
Qed.

Lemma running_response_job (r : Response) :
  running_response r = true -> exists j, r = Resolved j /\ running j.
Proof.
  destruct r as [j|m]; [|discriminate]. cbn. intros H. exists j.
  split; [reflexivity|]. apply negb_true_iff in H.
  split; intros E; rewrite (proj2 (terminal_cases j)) in H; auto; discriminate.
Qed.

(** Polling goes on through running jobs and ends with the first terminal
    one: the responses after it are never requested. *)
Lemma run_polls_until_terminal (o : Options) (t : N)
    (before after : list Response) (j : Job) :
  forallb running_response before = true -> terminal j = true ->
  run_polls o (Some t) (before ++ Resolved j :: after) =
  (None, concat (map (running_calls o) before)
         ++ snd (poll o (Some t) (Resolved j))).
Proof.
  intros B T. induction before as [|r rs IH].
  - cbn [app map concat run_polls].
    apply terminal_cases in T as [E|E];
      [rewrite (poll_completed o t j E)|rewrite (poll_failed o t j E)];
      rewrite run_polls_stopped; cbn [snd]; now rewrite app_nil_r.
  - cbn [forallb] in B. apply andb_true_iff in B as [R B].
    destruct (running_response_job r R) as (j' & -> & R').
    cbn [app map concat run_polls running_calls].
    rewrite (poll_running o (Some t) j' R'), (IH B).
    now rewrite app_assoc.
Qed.

End Polling.

(* ===================================================================== *)
(** * 14. Filtering blocks (ResultViewer.filterBlocks)                    *)
(* ===================================================================== *)

Section Filtering.
Import ResultViewer.

Lemma filter_sublist {A : Type} (f : A -> bool) (l : list A) :
  sublist (List.filter f l) l.
Proof.
  induction l as [|x l IH]; cbn.
  - constructor.
  - destruct (f x); [apply sublist_skip|apply sublist_cons]; exact IH.
Qed.

Lemma truthy_true (s : string) : truthy s = true <-> s <> "".
Proof.
  unfold truthy. destruct (String.eqb_spec s ""); cbn; split; intros; congruence.
Qed.

Lemma truthy_false (s : string) : truthy s = false <-> s = "".
Proof.
  unfold truthy. destruct (String.eqb_spec s ""); cbn; split; intros; congruence.
Qed.

Lemma prefix_app (q s : string) :
  String.prefix q s = true <-> exists post, s = (q ++ post)%string.
Proof.
  revert s. induction q as [|a q IH]; intros s.
  - split; [intros _; exists s; reflexivity|intros _; destruct s; reflexivity].
  - destruct s as [|c s]; cbn.
    + split; [discriminate|intros [post H]; discriminate H].
    + destruct (Ascii.ascii_dec a c) as [->|N].
      * rewrite IH. split; intros [post H]; exists post.
        -- now rewrite H.
        -- now injection H.
      * split; [discriminate|intros [post H]; injection H; intros; congruence].
Qed.

(** [includes] finds [q] exactly when [q] is a contiguous run of [s]. *)
Lemma includes_spec (s q : string) :
  includes s q = true <-> exists pre post, s = (pre ++ q ++ post)%string.
Proof.
  induction s as [|c s IH]; cbn [includes].
  - rewrite orb_false_r, prefix_app. split.
    + intros [post H]. exists ""%string, post. exact H.
    + intros (pre & post & H). destruct pre; [exists post; exact H|discriminate H].
  - rewrite orb_true_iff, prefix_app, IH. split.
    + intros [[post H]|(pre & post & H)].
      * exists ""%string, post. exact H.
      * exists (String c pre), post. cbn. now rewrite H.
    + intros (pre & post & H). destruct pre as [|c' pre].
      * left. exists post. exact H.
      * right. exists pre, post. cbn in H. now injection H.
Qed.

(** C9: [filterBlocks] returns a subsequence of its input (same blocks, same
    order, none added); with the type filter [all] and an empty query it
    returns the input itself; and a block is returned exactly when it is in
    the input, has the selected type when a type is selected, and contains
    the lowercased query in its lowercased text when a query is set. *)
Theorem filterBlocks_subsequence (st : State) (bs : list Block) :
  sublist (filterBlocks st bs) bs /\
  (filterType st = "all" -> searchQuery st = "" -> filterBlocks st bs = bs) /\
  (forall b, In b (filterBlocks st bs) <->
     In b bs /\
     (filterType st <> "all" -> type b = filterType st) /\
     (searchQuery st <> "" ->
        exists pre post,
          toLowerCase (text b) =
          (pre ++ toLowerCase (searchQuery st) ++ post)%string)).
Proof.
  unfold filterBlocks, str_eq.
  destruct (String.eqb_spec (filterType st) "all") as [Ea|Na];
  destruct (truthy (searchQuery st)) eqn:Eq; cbn [negb];
  try (apply truthy_true in Eq); try (apply truthy_false in Eq).
  - split; [apply filter_sublist|]. split; [congruence|].
    intros b. rewrite filter_In. unfold query_pred. rewrite includes_spec.
    intuition.
  - split; [reflexivity|]. split; [reflexivity|]. intuition.
  - split; [etrans; apply filter_sublist|]. split; [congruence|].
    intros b. rewrite !filter_In. unfold query_pred, type_pred.
    rewrite includes_spec, str_eq_true. intuition.
  - split; [apply filter_sublist|]. split; [congruence|].
    intros b. rewrite filter_In. unfold type_pred. rewrite str_eq_true.
    intuition.
Qed.

End Filtering.

(* ===================================================================== *)
(** * 15. Selecting a file (UploadPage.handleFileSelect)                  *)
(* ===================================================================== *)

Section Upload.
Import UploadPage.

Lemma extension_cons (c : ascii) (s : string) :
  extension (String c s) =
  match extension s with
  | Some e => Some e
  | None => if Ascii.eqb c "." then Some s else None
  end.
Proof. reflexivity. Qed.

Lemma split_on_no_dot (s : string) :
  extension s = None -> split_on "." s = [s].
Proof.
  induction s as [|c s IH]; [reflexivity|].
  rewrite extension_cons. cbn [split_on].
  destruct (extension s); [discriminate|].
  destruct (Ascii.eqb c "."); [discriminate|].
  intros _. now rewrite IH.
Qed.

Lemma split_on_dot (s e : string) :
  extension s = Some e -> exists h h' t, split_on "." s = h :: h' :: t.
Proof.
  revert e. induction s as [|c s IH]; intros e; [discriminate|].
  rewrite extension_cons. cbn [split_on].
  destruct (extension s) as [e'|] eqn:Ex.
  - intros _. destruct (IH e' eq_refl) as (h & h' & t & ->).
    destruct (Ascii.eqb c "."); eauto.
  - destruct (Ascii.eqb c "."); [|discriminate].
    intros _. rewrite (split_on_no_dot s Ex). eauto.
Qed.

(** [split('.').pop()] is the text after the last dot, or the whole name
    when the name has no dot. *)
Lemma last_split_on (s : string) :
  last (split_on "." s) =
  Some (match extension s with Some e => e | None => s end).
Proof.
  destruct (extension s) as [e|] eqn:Ex;
    [|now rewrite (split_on_no_dot s Ex)].
  revert e Ex. induction s as [|c s IH]; intros e; [discriminate|].
  rewrite extension_cons. cbn [split_on].
  destruct (extension s) as [e'|] eqn:Ex.
  - intros [= <-]. specialize (IH e' eq_refl).
    destruct (split_on_dot s e' Ex) as (h & h' & t & E). rewrite E in IH |- *.
    destruct (Ascii.eqb c "."); exact IH.
  - destruct (Ascii.eqb c "."); [|discriminate].
    intros [= <-]. now rewrite (split_on_no_dot s Ex).
Qed.

Lemma fileExt_extension (f : File) :
  fileExt f =
  ("." ++ toLowerCase
            (match extension (name f) with Some e => e | None => name f end))%string.
Proof. unfold fileExt. now rewrite last_split_on. Qed.

(** What [handleFileSelect] does with a selected file, case by case: it
    stores the file and clears the error exactly when the type check and the
    size check pass; otherwise it sets an error and keeps the stored file. *)
Lemma handleFileSelect_cases (st : State) (f : File) (rest : list File) :
  (type_allowed f = true /\ (size f <= size_limit)%N ->
     handleFileSelect st (f :: rest) = accepted st f) /\
  (~ (type_allowed f = true /\ (size f <= size_limit)%N) ->
     file (handleFileSelect st (f :: rest)) = file st /\
     exists msg, error (handleFileSelect st (f :: rest)) = Some msg).
Proof.
  unfold handleFileSelect. cbn [head].
  destruct (type_allowed f) eqn:Et; cbn [negb].
  - destruct (N.ltb_spec size_limit (size f)) as [L|L].
    + split; [intros [_ H]; lia|]. intros _. cbn. eauto.
    + split; [reflexivity|]. intros H. exfalso. apply H. split; [reflexivity|lia].
  - split; [intros [H _]; discriminate H|]. intros _. cbn. eauto.
Qed.

(** For a name that has a dot, the code accepts exactly as the specification
    says: by the lowercased extension and the size. *)
Lemma handleFileSelect_dotted_name (st : State) (f : File) (rest : list File)
    (e : string) :
  extension (name f) = Some e ->
  (handleFileSelect st (f :: rest) = accepted st f <->
   accepted_by_extension f = true).
Proof.
  intros Ex. unfold accepted_by_extension. rewrite Ex.
  destruct (handleFileSelect_cases st f rest) as [Hacc Hrej].
  assert (T : type_allowed f =
              existsb (str_eq ("." ++ toLowerCase e)) allowedTypes).
  { unfold type_allowed. now rewrite fileExt_extension, Ex. }
  rewrite <- T, andb_true_iff, N.leb_le. split.
  - intros H.
    destruct (type_allowed f) eqn:Et;
      [destruct (N.le_gt_cases (size f) size_limit) as [L|L]; [now split|]|].
    + destruct Hrej as [_ [msg Hm]]; [intros [_ ?]; lia|].
      rewrite H in Hm. discriminate Hm.
    + destruct Hrej as [_ [msg Hm]]; [intros [? _]; discriminate|].
      rewrite H in Hm. discriminate Hm.
  - exact Hacc.
Qed.

(** C10: acceptance by extension fails for a name without a dot: the file
    named [pdf] has no extension, yet [handleFileSelect] stores it and clears
    the error, because [split('.').pop()] returns the whole name. *)
Theorem handleFileSelect_accepts_extensionless_name :
  extension (name extensionless_file) = None /\
  accepted_by_extension extensionless_file = false /\
  fileExt extensionless_file = ".pdf" /\
  handleFileSelect upload_start [extensionless_file] =
    accepted upload_start extensionless_file.
Proof. repeat split; reflexivity. Qed.

End Upload.

(* ===================================================================== *)
(** * 16. The side-by-side viewer (ResultViewer, BlockHighlighter)        *)
(* ===================================================================== *)

Section Viewer.
Import BlockHighlighter ResultViewer.

Lemma panel_elements_shown (st : State) (d : option StructuredDocument)
    (l : Language) (notice : string) :
  panel_elements (panel st d l notice) = map (shown_block st l) (shown_blocks st d).
Proof.
  destruct d as [doc|]; [|reflexivity].
  unfold panel, panel_elements, renderBlocks, shown_blocks.
  rewrite map_map. cbn [pv_blocks].
  induction (pages doc) as [|pg pgs IH]; [reflexivity|].
  cbn [map concat]. rewrite map_app. f_equal. exact IH.
Qed.

(** The page either shows no block at all or is the side-by-side viewer. *)
Lemma render_cases (st : State) :
  elements (render st) = [] \/ render st = side_by_side st.
Proof.
  unfold render.
  destruct (loading st); [left; reflexivity|].
  destruct (truthy_error (error st)); [left; reflexivity|].
  destruct (negb (present (arabicDoc st)) && negb (present (englishDoc st)));
    [left; reflexivity|right; reflexivity].
Qed.

Lemma side_by_side_elements (st : State) :
  elements (side_by_side st) =
  map (shown_block st ar) (shown_blocks st (arabicDoc st)) ++
  map (shown_block st en) (shown_blocks st (englishDoc st)).
Proof. cbn [side_by_side elements]. now rewrite !panel_elements_shown. Qed.

(** The elements with an id on the page, once loading is over. *)
Lemma elements_shown (st : State) :
  past_loading st ->
  elements (render st) =
  map (shown_block st ar) (shown_blocks st (arabicDoc st)) ++
  map (shown_block st en) (shown_blocks st (englishDoc st)).
Proof.
  intros [L E]. unfold render. rewrite L, E. cbn [truthy_error].
  destruct (arabicDoc st) as [a|] eqn:Ea, (englishDoc st) as [e|] eqn:Ee;
    cbn [present negb andb]; rewrite ?side_by_side_elements, ?Ea, ?Ee;
    reflexivity.
Qed.

(** Every element on the page renders a block that passes the filter. *)
Lemma elements_in_panels (st : State) (e : BlockView) :
  In e (elements (render st)) ->
  exists blk, In blk (shown_blocks st (doc_of st (bv_language e))) /\
              e = shown_block st (bv_language e) blk.
Proof.
  destruct (render_cases st) as [->| ->]; [intros []|].
  rewrite side_by_side_elements, in_app_iff, !in_map_iff.
  intros [(blk & <- & H)|(blk & <- & H)]; exists blk; split; auto.
Qed.

Lemma dom_id_match (l l' : Language) (x b : string) :
  str_eq ("block-" ++ lang_tag l ++ "-" ++ x) ("block-" ++ lang_tag l' ++ "-" ++ b)
  = lang_eqb l l' && str_eq x b.
Proof. destruct l, l'; reflexivity. Qed.

(** Every element on the page carries the id [block-<L>-<block_id>] of its
    language and block. *)
Lemma elements_dom_id (st : State) (e : BlockView) :
  In e (elements (render st)) ->
  dom_id e = ("block-" ++ lang_tag (bv_language e) ++ "-"
              ++ block_id (bv_block e))%string.
Proof.
  intros H. destruct (elements_in_panels st e H) as (blk & _ & E).
  set (l := bv_language e) in E. clearbody l. subst e. reflexivity.
Qed.

Lemma find_ext_in {A : Type} (f g : A -> bool) (l : list A) :
  (forall x, In x l -> f x = g x) -> List.find f l = List.find g l.
Proof.
  induction l as [|x l IH]; intros H; [reflexivity|].
  cbn. rewrite (H x) by (left; reflexivity).
  destruct (g x); [reflexivity|]. apply IH. intros y Hy. apply H. now right.
Qed.

(** [getElementById] with the id of language [l] and block id [b] finds the
    first element of that language rendering a block with that id. *)
Lemma getElementById_spec (st : State) (l : Language) (b : string) :
  getElementById (elements (render st))
                 ("block-" ++ lang_tag l ++ "-" ++ b) =
  List.find (fun e => lang_eqb (bv_language e) l
                      && str_eq (block_id (bv_block e)) b)
            (elements (render st)).
Proof.
  unfold getElementById. apply find_ext_in. intros e H.
  rewrite (elements_dom_id st e H). apply dom_id_match.
Qed.

Lemma lang_eqb_true (a b : Language) : lang_eqb a b = true <-> a = b.
Proof. destruct a, b; cbn; split; congruence. Qed.

Lemma getElementById_found (st : State) (l : Language) (b : string) :
  rendered st l b <->
  exists e, getElementById (elements (render st))
                           ("block-" ++ lang_tag l ++ "-" ++ b) = Some e.
Proof.
  rewrite getElementById_spec. split.
  - intros (e & H & L & B).
    destruct (List.find _ (elements (render st))) as [e'|] eqn:F; [eauto|].
    exfalso. pose proof (find_none _ _ F e H) as N. cbv beta in N.
    rewrite L, B in N.
    rewrite (proj2 (lang_eqb_true l l) eq_refl) in N.
    rewrite (proj2 (str_eq_true b b) eq_refl) in N.
    discriminate N.
  - intros [e F]. apply find_some in F as [H T].
    apply andb_true_iff in T as [L B].
    exists e. split; [exact H|]. split; [now apply lang_eqb_true|].
    now apply str_eq_true.
Qed.

Lemma getElementById_sound (st : State) (l : Language) (b : string)
    (e : BlockView) :
  getElementById (elements (render st))
                 ("block-" ++ lang_tag l ++ "-" ++ b) = Some e ->
  In e (elements (render st)) /\ bv_language e = l /\
  block_id (bv_block e) = b /\
  dom_id e = ("block-" ++ lang_tag l ++ "-" ++ b)%string.
Proof.
  rewrite getElementById_spec. intros F. apply find_some in F as [H T].
  apply andb_true_iff in T as [L B].
  apply lang_eqb_true in L. apply str_eq_true in B.
  repeat split; try assumption.
  rewrite (elements_dom_id st e H), L, B. reflexivity.
Qed.

Lemma handleBlockClick_targets (st : State) (b : string) :
  snd (handleBlockClick st b) =
  scrollIntoView (getElementById (elements (render st))
                    ("block-" ++ lang_tag ar ++ "-" ++ b)) ++
  scrollIntoView (getElementById (elements (render st))
                    ("block-" ++ lang_tag en ++ "-" ++ b)).
Proof. reflexivity. Qed.

Lemma no_filter_shows_all (st : State) (d : option StructuredDocument) :
  filterType st = "all" -> searchQuery st = "" ->
  shown_blocks st d = doc_blocks d.
Proof.
  intros F Q. destruct d as [doc|]; [|reflexivity].
  unfold shown_blocks, doc_blocks. f_equal. apply map_ext. intros pg.
  unfold filterBlocks. now rewrite F, Q.
Qed.

Lemma scrolled_iff_found (st : State) (l : Language) (b : string) :
  scrolled_to (snd (handleBlockClick st b)) l b <->
  exists e, getElementById (elements (render st))
                           ("block-" ++ lang_tag l ++ "-" ++ b) = Some e.
Proof.
  rewrite handleBlockClick_targets. unfold scrolled_to. split.
  - intros (e & H & L & D). apply in_app_iff in H.
    destruct H as [H|H];
      match type of H with
      | In _ (scrollIntoView ?g) => destruct g as [x|] eqn:G; [|destruct H]
      end;
      destruct H as [<-|[]];
      destruct (getElementById_sound st _ b x G) as (_ & L' & _);
      rewrite L' in L; subst l; eauto.
  - intros [e G]. exists e.
    destruct (getElementById_sound st l b e G) as (_ & L & _ & D).
    split; [|split; assumption].
    apply in_app_iff. destruct l; rewrite G; [left|right]; left; reflexivity.
Qed.

(** C4, as the specification words it, fails: with [hello] in the search
    box the English block [b1] is on the page and its Arabic counterpart,
    whose text does not contain the query, is not; clicking the English block
    scrolls the English element only. *)
Lemma paired_target_hidden_by_search :
  In "b1" (block_ids (arabicDoc searching_hello)) /\
  In "b1" (block_ids (englishDoc searching_hello)) /\
  rendered searching_hello en "b1" /\
  ~ rendered searching_hello ar "b1" /\
  ~ scrolled_to (snd (handleBlockClick searching_hello "b1")) ar "b1" /\
  map dom_id (snd (handleBlockClick searching_hello "b1")) = ["block-en-b1"].
Proof.
  assert (NR : ~ rendered searching_hello ar "b1").
  { intros R. apply getElementById_found in R. destruct R as [e R].
    vm_compute in R. discriminate R. }
  split; [left; reflexivity|]. split; [left; reflexivity|].
  split.
  { apply getElementById_found. vm_compute. eauto. }
  split; [exact NR|]. split.
  - intros S. apply scrolled_iff_found, getElementById_found in S. exact (NR S).
  - vm_compute. reflexivity.
Qed.

Lemma rendered_iff_shown (st : State) (l : Language) (b : string) :
  past_loading st ->
  (rendered st l b <->
   exists blk, In blk (shown_blocks st (doc_of st l)) /\ block_id blk = b).
Proof.
  intros P. unfold rendered. rewrite (elements_shown st P). split.
  - intros (e & H & L & B). apply in_app_iff in H.
    destruct H as [H|H]; apply in_map_iff in H as (blk & <- & H);
      cbn in L; subst l; exists blk; split; assumption.
  - intros (blk & H & B). exists (shown_block st l blk).
    split; [|split; [reflexivity|exact B]].
    apply in_app_iff. destruct l; [left|right]; apply in_map, H.
Qed.

(** A query without metacharacters, the empty one included, is a pattern
    [highlightText] handles: it returns, and the model says what. *)
Lemma highlightText_defined (t q : string) :
  regex_literal q = true -> exists c, highlightText t q = Some c.
Proof.
  intros RL. unfold highlightText, split_query.
  destruct q as [|a q]; [eexists; reflexivity|].
  change (truthy (String a q)) with true. cbn [negb]. rewrite RL.
  eexists. reflexivity.
Qed.

(** C4, amended: for a search query that is empty or free of
    regular-expression metacharacters, every element on the page has the id
    [block-<L>-<block_id>] of the block it renders, shows that block's
    highlighted text, and that block passes the active filter; clicking it
    calls [handleBlockClick] with its block id, which records that id as
    highlighted and scrolls to exactly those of [block-ar-<b>] and
    [block-en-<b>] that are on the page.  Once loading is over an element for
    [b] is on the page in language [L] exactly when a block with id [b] of
    that document passes the filter; so with no filter active a block id
    shared by both documents scrolls both panels. *)
Theorem handleBlockClick_scrolls_rendered_pair (st : State) (b : string) :
  regex_literal (searchQuery st) = true ->
  highlightedBlockId (fst (handleBlockClick st b)) = Some b /\
  (forall e, In e (elements (render st)) ->
     dom_id e = ("block-" ++ lang_tag (bv_language e) ++ "-"
                 ++ block_id (bv_block e))%string /\
     (exists c, bv_content e = Some c /\
                highlightText (text (bv_block e)) (searchQuery st) = Some c) /\
     click st e = handleBlockClick st (block_id (bv_block e)) /\
     In (bv_block e) (shown_blocks st (doc_of st (bv_language e)))) /\
  (forall l, scrolled_to (snd (handleBlockClick st b)) l b <-> rendered st l b) /\
  (forall e, In e (snd (handleBlockClick st b)) ->
     In e (elements (render st)) /\ block_id (bv_block e) = b) /\
  (past_loading st ->
     forall l, rendered st l b <->
       exists blk, In blk (shown_blocks st (doc_of st l)) /\ block_id blk = b) /\
  (past_loading st -> filterType st = "all" -> searchQuery st = "" ->
     In b (block_ids (arabicDoc st)) -> In b (block_ids (englishDoc st)) ->
     scrolled_to (snd (handleBlockClick st b)) ar b /\
     scrolled_to (snd (handleBlockClick st b)) en b).
Proof.
  intros RL.
  assert (S : forall l, scrolled_to (snd (handleBlockClick st b)) l b <->
                        rendered st l b).
  { intros l. now rewrite scrolled_iff_found, getElementById_found. }
  split; [reflexivity|]. split; [|split; [exact S|split; [|split]]].
  - intros e H. split; [exact (elements_dom_id st e H)|].
    destruct (elements_in_panels st e H) as (blk & I & E).
    set (l := bv_language e) in *. clearbody l. subst e.
    cbn [shown_block render_block bv_content bv_block].
    split; [|split; [reflexivity|exact I]].
    destruct (highlightText_defined (text blk) (searchQuery st) RL) as [c C].
    exists c. split; exact C.
  - intros e H. rewrite handleBlockClick_targets in H. apply in_app_iff in H.
    destruct H as [H|H];
      match type of H with
      | In _ (scrollIntoView ?g) => destruct g as [x|] eqn:G; [|destruct H]
      end;
      destruct H as [<-|[]];
      destruct (getElementById_sound st _ b x G) as (I & _ & B & _);
      split; assumption.
  - intros P l. exact (rendered_iff_shown st l b P).
  - intros P F Q Ha He.
    unfold block_ids in Ha, He. apply in_map_iff in Ha as (ba & Ba & Ha).
    apply in_map_iff in He as (be & Be & He).
    split; apply S, (rendered_iff_shown st _ b P); cbn [doc_of];
      rewrite (no_filter_shows_all st _ F Q); eauto.
Qed.

Lemma handleBlockClick_pair_witness :
  regex_literal (searchQuery (on_result initial both_documents)) = true /\
  past_loading (on_result initial both_documents) /\
  scrolled_to (snd (handleBlockClick (on_result initial both_documents) "b1"))
              ar "b1" /\
  scrolled_to (snd (handleBlockClick (on_result initial both_documents) "b1"))
              en "b1".
Proof.
  assert (P : past_loading (on_result initial both_documents))
    by (split; reflexivity).
  split; [reflexivity|]. split; [exact P|].
  destruct (handleBlockClick_scrolls_rendered_pair
              (on_result initial both_documents) "b1" eq_refl)
    as (_ & _ & _ & _ & _ & H).
  apply H; [exact P|reflexivity|reflexivity|left; reflexivity|left; reflexivity].
Defined.

Lemma blocks_by_page_renderBlocks (st : State) (d : StructuredDocument)
    (l : Language) :
  blocks_by_page (renderBlocks st d l) =
  map (fun pg => filterBlocks st (blocks pg)) (pages d).
Proof.
  unfold blocks_by_page, renderBlocks. rewrite map_map. apply map_ext.
  intros pg. cbn [pv_blocks]. rewrite map_map. cbn [render_block bv_block].
  apply map_id.
Qed.

(** C6, as the specification words it, fails: with only the Arabic document
    present and [zzz] in the search box, the viewer shows the page of the
    document without its block, which does not contain the query. *)
Lemma present_document_not_shown_in_full :
  arabic arabic_only = Some arabic_sample /\
  english arabic_only = None /\
  render searching_zzz =
    ViewSideBySide
      (PanelDocument [ {| pv_key := 0; pv_number := 1; pv_blocks := [] |} ])
      (PanelNotice "English document not available") /\
  blocks_by_page (renderBlocks searching_zzz arabic_sample ar) = [[]] /\
  map blocks (pages arabic_sample) <> [[]].
Proof.
  split; [reflexivity|]. split; [reflexivity|].
  split; [vm_compute; reflexivity|]. split; [vm_compute; reflexivity|].
  discriminate.
Qed.

(** C6, amended: for a loaded result with one document missing, and a search
    query that is empty or free of regular-expression metacharacters, the
    viewer shows the panel of the document that is there, with every page in
    order and, on each page, the blocks that pass the active type and search
    filter, each with its id and its highlighted text; as long as no filter
    is set, as right after loading, these are all blocks, each with its text
    unchanged.  Next to it a notice says that the other document is not
    available; a missing English document never hides the Arabic one, and the
    [No results available] page appears exactly when both are missing. *)
Theorem viewer_shows_present_document (r : JobResult) (d : StructuredDocument)
    (q f : string) (h : option string) :
  regex_literal q = true ->
  on_result initial r = viewing r "" "all" None /\
  (arabic r = Some d -> english r = None ->
     render (viewing r q f h) =
       ViewSideBySide
         (PanelDocument
            (map (expected_page (viewing r q f h) ar
                    (filterBlocks (viewing r q f h))) (pages d)))
         (PanelNotice "English document not available")) /\
  (arabic r = None -> english r = Some d ->
     render (viewing r q f h) =
       ViewSideBySide
         (PanelNotice "Arabic document not available")
         (PanelDocument
            (map (expected_page (viewing r q f h) en
                    (filterBlocks (viewing r q f h))) (pages d)))) /\
  (forall b : Block, exists c, highlightText (text b) q = Some c) /\
  (q = "" -> f = "all" ->
     (forall l,
        map (expected_page (viewing r q f h) l
               (filterBlocks (viewing r q f h))) (pages d) =
        map (expected_page (viewing r q f h) l (fun bs => bs)) (pages d)) /\
     (forall b : Block, highlightText (text b) q = Some (Unchanged (text b)))) /\
  (render (viewing r q f h) = ViewNoResults "No results available for this job."
     <-> arabic r = None /\ english r = None).
Proof.
  intros RL.
  split; [reflexivity|].
  split; [intros A E; unfold render, side_by_side; cbn; rewrite A, E; reflexivity|].
  split; [intros A E; unfold render, side_by_side; cbn; rewrite A, E; reflexivity|].
  split; [intros b; exact (highlightText_defined (text b) q RL)|].
  split.
  - intros -> ->. split; [|reflexivity]. intros l. reflexivity.
  - unfold render, side_by_side. cbn.
    destruct (arabic r), (english r); cbn; split;
      try discriminate; try tauto; intros [? ?]; discriminate.
Qed.

Lemma viewer_shows_present_document_witness :
  regex_literal "" = true /\
  arabic arabic_only = Some arabic_sample /\ english arabic_only = None /\
  render (on_result initial arabic_only) =
    ViewSideBySide
      (PanelDocument
         [ {| pv_key := 0; pv_number := 1;
              pv_blocks :=
                [ {| dom_id := "block-ar-b1"; bv_language := ar;
                     bv_block := {| block_id := "b1"; type := "paragraph";
                                    metadata := plain_metadata;
                                    text := "marhaban" |};
                     bv_highlighted := false;
                     bv_content := Some (Unchanged "marhaban") |} ] |} ])
      (PanelNotice "English document not available").
Proof.
  destruct (viewer_shows_present_document arabic_only arabic_sample "" "all" None
              eq_refl) as (E & A & _).
  split; [reflexivity|]. split; [reflexivity|]. split; [reflexivity|].
  rewrite E. rewrite (A eq_refl eq_refl). reflexivity.
Defined.

End Viewer.

(* ===================================================================== *)
(** * 17. Highlighting the search query (BlockHighlighter.highlightText) *)
(* ===================================================================== *)

Section Highlight.
Import BlockHighlighter.

Lemma append_nil_r (s : string) : (s ++ "")%string = s.
Proof. induction s as [|c s IH]; cbn; [reflexivity|now rewrite IH]. Qed.

Lemma append_assoc (a b c : string) :
  ((a ++ b) ++ c)%string = (a ++ (b ++ c))%string.
Proof. induction a as [|x a IH]; cbn; [reflexivity|now rewrite IH]. Qed.

Lemma concat_cons (x : string) (l : list string) :
  String.concat "" (x :: l) = (x ++ String.concat "" l)%string.
Proof. destruct l; cbn; [now rewrite append_nil_r|reflexivity]. Qed.

Lemma in_all_ascii (c : ascii) : In c all_ascii.
Proof.
  unfold all_ascii. apply in_map_iff. exists (nat_of_ascii c).
  split; [apply ascii_nat_embedding|].
  apply in_seq. pose proof (nat_ascii_bounded c). lia.
Qed.

Lemma canonicalize_lower (a c : ascii) :
  Ascii.eqb (canonicalize a) (canonicalize c) = Ascii.eqb (lower_char a) (lower_char c).
Proof.
  assert (H : case_folds_agree = true) by (vm_compute; reflexivity).
  unfold case_folds_agree in H. rewrite forallb_forall in H.
  specialize (H a (in_all_ascii a)). rewrite forallb_forall in H.
  specialize (H c (in_all_ascii c)). now apply Bool.eqb_prop in H.
Qed.

Lemma match_at_split (q t m r : string) :
  match_at q t = Some (m, r) -> t = (m ++ r)%string.
Proof.
  revert t m r. induction q as [|a q IH]; intros t m r; cbn.
  - intros [= <- <-]. reflexivity.
  - destruct t as [|c t]; [discriminate|].
    destruct (Ascii.eqb _ _); [|discriminate].
    destruct (match_at q t) as [[m' r']|] eqn:E; [|discriminate].
    intros [= <- <-]. cbn. now rewrite (IH _ _ _ E).
Qed.

(** What the pattern matches equals the query, case ignored. *)
Lemma match_at_lower (q t m r : string) :
  match_at q t = Some (m, r) -> toLowerCase m = toLowerCase q.
Proof.
  revert t m r. induction q as [|a q IH]; intros t m r; cbn.
  - intros [= <- _]. reflexivity.
  - destruct t as [|c t]; [discriminate|].
    rewrite canonicalize_lower.
    destruct (Ascii.eqb_spec (lower_char a) (lower_char c)) as [L|]; [|discriminate].
    destruct (match_at q t) as [[m' r']|] eqn:E; [|discriminate].
    intros [= <- _]. cbn. now rewrite L, (IH _ _ _ E).
Qed.

(** A text that starts with the query, case ignored, is matched. *)
Lemma match_at_complete (q m r : string) :
  toLowerCase m = toLowerCase q -> match_at q (m ++ r) = Some (m, r).
Proof.
  revert m. induction q as [|a q IH]; intros m; cbn.
  - destruct m; [reflexivity|discriminate].
  - destruct m as [|c m]; [discriminate|]. cbn.
    intros [= L E]. rewrite canonicalize_lower, <- L, Ascii.eqb_refl.
    now rewrite (IH m E).
Qed.

Lemma split_scan_concat (a : ascii) (q seg rest : string) :
  String.concat "" (split_scan a q seg rest) = (seg ++ rest)%string.
Proof.
  funelim (split_scan a q seg rest).
  - cbn. now rewrite append_nil_r.
  - rewrite !concat_cons, H. cbn [append].
    now rewrite (match_at_split _ _ _ _ E).
  - rewrite H, append_assoc. reflexivity.
Qed.





Lemma mark_part_text (query part : string) :
  part_text (mark_part query part) = part.
Proof. unfold mark_part. now destruct (str_eq _ _). Qed.

Lemma mark_part_marked (query part : string) :
  marked_iff_equal query (mark_part query part).
Proof.
  unfold mark_part, marked_iff_equal.
  destruct (str_eq _ _) eqn:E; [apply str_eq_true, E|apply str_eq_false, E].
Qed.

(** C8: with an empty query [highlightText] returns the text itself; with a
    non-empty query free of metacharacters it returns parts whose contents,
    concatenated in order, are the text, and a part is wrapped as a mark
    exactly when it equals the query with case ignored. *)
Theorem highlightText_reassembles (text query : string) :
  highlightText text "" = Some (Unchanged text) /\
  (query <> ""%string -> regex_literal query = true ->
     exists parts,
       highlightText text query = Some (Parts parts) /\
       String.concat "" (map part_text parts) = text /\
       Forall (marked_iff_equal query) parts).
Proof.
  split; [reflexivity|]. intros NE RL.
  unfold highlightText, split_query.
  destruct query as [|a q]; [contradiction|].
  change (truthy (String a q)) with true. cbn [negb]. rewrite RL.
  eexists. split; [reflexivity|]. split.
  - rewrite map_map.
    rewrite (map_ext _ (fun x => x) (mark_part_text (String a q))), map_id.
    apply split_scan_concat.
  - apply List.Forall_forall. intros p H.
    apply in_map_iff in H as (x & <- & _). apply mark_part_marked.
Qed.

Lemma highlightText_reassembles_witness :
  "LL" <> ""%string /\ regex_literal "LL" = true /\
  exists parts,
    highlightText "Hello all" "LL" = Some (Parts parts) /\
    String.concat "" (map part_text parts) = "Hello all"%string /\
    Forall (marked_iff_equal "LL") parts.
Proof.
  split; [discriminate|]. split; [reflexivity|].
  apply (proj2 (highlightText_reassembles "Hello all" "LL"));
    [discriminate|reflexivity].
Defined.


Example highlightText_hello :
  highlightText "Hello all" "LL" =
  Some (Parts [Plain "He"; Mark "ll"; Plain "o a"; Mark "ll"; Plain ""]).
Proof. vm_compute. reflexivity. Qed.

End Highlight.

(* ===================================================================== *)
(** * 18. More on polling (useJobPolling)                                 *)
(* ===================================================================== *)

Section PollingSessions.
Import useJobPolling.

Lemma poll_rejected (o : Options) (t : N) (msg : string) :
  poll o (Some t) (Rejected msg) =
  (None, (if onError o then [CallOnError msg] else []) ++ [ClearInterval t]).
Proof. reflexivity. Qed.

Lemma poll_counts (o : Options) (ref : option N) (r : Response) :
  (length (List.filter is_final_call (snd (poll o ref r))) <= 1)%nat /\
  (length (List.filter is_clear (snd (poll o ref r))) <= 1)%nat /\
  (fst (poll o ref r) = None \/
   fst (poll o ref r) = ref /\ running_response r = true /\
   List.filter is_final_call (snd (poll o ref r)) = [] /\
   List.filter is_clear (snd (poll o ref r)) = []).
Proof.
  destruct r as [j|m]; cbn [poll running_response].
  - unfold terminal.
    destruct (str_eq (status j) "completed") eqn:Ec;
    destruct (str_eq (status j) "failed") eqn:Ef;
    destruct ref as [t|], (onUpdate o), (onComplete o), (onError o);
    cbn; repeat split; try lia; auto.
  - destruct ref as [t|], (onError o); cbn; repeat split; try lia; auto.
Qed.

(** X2: however the requests settle, a polling session calls [onComplete] or
    [onError] at most once in total and clears its interval at most once; it
    ends with the interval released exactly when some request came back
    failed, completed or rejected. *)
Theorem run_polls_ends_once (o : Options) (t : N) (rs : list Response) :
  (length (List.filter is_final_call (snd (run_polls o (Some t) rs))) <= 1)%nat /\
  (length (List.filter is_clear (snd (run_polls o (Some t) rs))) <= 1)%nat /\
  (fst (run_polls o (Some t) rs) = None <->
   forallb running_response rs = false) /\
  (fst (run_polls o (Some t) rs) = Some t <->
   forallb running_response rs = true).
Proof.
  induction rs as [|r rs IH]; [cbn; repeat split; try lia; congruence|].
  cbn [run_polls forallb].
  destruct (poll_counts o (Some t) r) as (F & C & K).
  destruct (poll o (Some t) r) as [ref es] eqn:P. cbn [fst snd] in *.
  destruct K as [->|(-> & R & F0 & C0)].
  - rewrite run_polls_stopped, app_nil_r. cbn [fst snd].
    assert (running_response r = false) as ->.
    { destruct r as [j|m]; [|reflexivity]. cbn.
      destruct (negb (terminal j)) eqn:N; [|reflexivity]. exfalso.
      apply negb_true_iff in N.
      assert (R : running j).
      { split; intros E; rewrite (proj2 (terminal_cases j)) in N; auto;
          discriminate. }
      rewrite (poll_running o (Some t) j R) in P. discriminate P. }
    cbn. repeat split; auto; try discriminate.
  - rewrite R. cbn [andb].
    destruct (run_polls o (Some t) rs) as [ref' es'] eqn:Q. cbn [fst snd] in *.
    rewrite !List.filter_app, F0, C0. cbn [app]. exact IH.
Qed.

Lemma run_polls_effects (o : Options) (t : N) (rs : list Response) (e : Effect) :
  In e (snd (run_polls o (Some t) rs)) ->
  exists r, In r rs /\ In e (snd (poll o (Some t) r)).
Proof.
  induction rs as [|r rs IH]; [intros []|].
  cbn [run_polls].
  destruct (poll o (Some t) r) as [ref es] eqn:P.
  destruct (run_polls o ref rs) as [ref' es'] eqn:Q. cbn [snd].
  intros H. apply in_app_iff in H as [H|H].
  - exists r. split; [now left|]. now rewrite P.
  - destruct ref as [t'|].
    + assert (t' = t) as ->.
      { destruct (poll_counts o (Some t) r) as (_ & _ & [K|(K & _)]);
          rewrite P in K; cbn in K; congruence. }
      rewrite Q in IH. destruct (IH H) as (r' & I & J).
      exists r'. split; [now right|exact J].
    + rewrite run_polls_stopped in Q. injection Q as _ <-. destruct H.
Qed.

(** X3: a polling session never calls a callback that was not supplied, calls
    [onUpdate] and [onComplete] only with jobs the server returned, calls
    [onComplete] only with a completed job, and clears no timer but its own. *)
Theorem run_polls_calls_are_justified (o : Options) (t : N)
    (rs : list Response) (e : Effect) :
  In e (snd (run_polls o (Some t) rs)) ->
  match e with
  | CallOnUpdate j => onUpdate o = true /\ In (Resolved j) rs
  | CallOnComplete j =>
      onComplete o = true /\ In (Resolved j) rs /\ status j = "completed"
  | CallOnError m =>
      onError o = true /\
      (In (Rejected m) rs \/
       exists j, In (Resolved j) rs /\ status j = "failed" /\
                 m = or_default (error_message j) "Job failed")
  | ClearInterval t' => t' = t
  end.
Proof.
  intros H. destruct (run_polls_effects o t rs e H) as (r & I & J). clear H.
  destruct r as [j|m]; cbn [poll] in J.
  - destruct (str_eq (status j) "completed") eqn:Ec;
    destruct (str_eq (status j) "failed") eqn:Ef;
    destruct (onUpdate o) eqn:U, (onComplete o) eqn:C, (onError o) eqn:E;
    cbn in J;
    repeat (destruct J as [<-|J]; [|]); try destruct J;
    try apply str_eq_true in Ec; try apply str_eq_true in Ef;
    repeat split; eauto 6.
  - destruct (onError o) eqn:E; cbn in J;
    repeat (destruct J as [<-|J]; [|]); try destruct J; repeat split; eauto.
Qed.

Lemma run_polls_calls_witness :
  In (CallOnComplete (job_at "completed" "completed" "completed" "completed" None))
     (snd (run_polls all_callbacks (Some 3%N)
             [Resolved job_ocr;
              Resolved (job_at "completed" "completed" "completed" "completed" None)])) /\
  status (job_at "completed" "completed" "completed" "completed" None) = "completed".
Proof.
  assert (H : In (CallOnComplete (job_at "completed" "completed" "completed" "completed" None))
     (snd (run_polls all_callbacks (Some 3%N)
             [Resolved job_ocr;
              Resolved (job_at "completed" "completed" "completed" "completed" None)]))).
  { vm_compute. right. right. right. left. reflexivity. }
  split; [exact H|].
  exact (proj2 (proj2 (run_polls_calls_are_justified _ _ _ _ H))).
Defined.

(** X1: a request that is rejected reports the error through [onError] (when
    supplied), releases the interval, and ends the session: no later request
    is made. *)
Theorem poll_rejection_ends_session (o : Options) (t : N) (msg : string)
    (rs : list Response) :
  run_polls o (Some t) (Rejected msg :: rs) =
  (None, (if onError o then [CallOnError msg] else []) ++ [ClearInterval t]).
Proof.
  cbn [run_polls]. rewrite poll_rejected, run_polls_stopped.
  now rewrite app_nil_r.
Qed.

(** X4: [stopPolling] releases the interval, calling it again does nothing,
    and no tick polls afterwards; but a request already in flight still makes
    the same callbacks when it settles: only the [clearInterval] is skipped. *)
Theorem stopPolling_keeps_inflight_callbacks (o : Options) (ref : option N)
    (r : Response) (rs : list Response) :
  fst (stopPolling ref) = None /\
  stopPolling (fst (stopPolling ref)) = (None, []) /\
  run_polls o (fst (stopPolling ref)) rs = (None, []) /\
  snd (poll o (fst (stopPolling ref)) r) =
    List.filter (fun e => negb (is_clear e)) (snd (poll o ref r)).
Proof.
  assert (S : fst (stopPolling ref) = None) by (destruct ref; reflexivity).
  rewrite S. split; [reflexivity|]. split; [reflexivity|].
  split; [apply run_polls_stopped|].
  destruct r as [j|m]; cbn [poll].
  - destruct (str_eq (status j) "completed"), (str_eq (status j) "failed"),
      ref, (onUpdate o), (onComplete o), (onError o); reflexivity.
  - destruct ref, (onError o); reflexivity.
Qed.

End PollingSessions.

(* ===================================================================== *)
(** * 19. What the status page displays (JobStatusPage)                   *)
(* ===================================================================== *)

Section ProgressDisplay.
Import JobStatusPage.

Lemma class_label (c1 c2 c3 : StageClass) :
  PrimFloat.leb 0%float (class_progress c1 c2 c3) = true /\
  exists n, Math_round (class_progress c1 c2 c3) = Some n /\
            (0 <= n <= 99)%Z.
Proof.
  destruct c1, c2, c3; (split; [vm_compute; reflexivity|]);
    eexists; (split; [vm_compute; reflexivity|lia]).
Qed.

(** X5: the value handed to the progress bar always lies between 0 and 100,
    and the rounded percentage under it is an integer between 0 and 100 that
    reads 100 exactly when the job is completed, which is exactly when the
    [View Results] button is shown. *)
Theorem progress_display_in_range (j : Job) :
  PrimFloat.leb 0%float (getProgress (Some j)) = true /\
  PrimFloat.leb (getProgress (Some j)) 100%float = true /\
  exists n, progress_label (Some j) = Some n /\
            (0 <= n <= 100)%Z /\
            (n = 100%Z <-> status j = "completed") /\
            (n = 100%Z <-> view_results_shown j = true).
Proof.
  unfold progress_label, view_results_shown.
  destruct (String.eqb_spec (status j) "completed") as [C|C].
  - unfold getProgress. rewrite C. cbn [str_eq String.eqb].
    split; [vm_compute; reflexivity|]. split; [vm_compute; reflexivity|].
    exists 100%Z. split; [vm_compute; reflexivity|].
    unfold str_eq. cbn. intuition lia.
  - assert (V : str_eq (status j) "completed" = false)
      by (apply str_eq_false, C).
    rewrite V.
    destruct (String.eqb_spec (status j) "failed") as [F|F].
    + unfold getProgress. rewrite F. cbn [str_eq String.eqb].
      split; [vm_compute; reflexivity|]. split; [vm_compute; reflexivity|].
      exists 0%Z. split; [vm_compute; reflexivity|].
      split; [lia|]. split; split; intros; (lia || congruence).
    + rewrite (getProgress_running j (conj C F)).
      destruct (class_label (classify (extraction (processing_stages j)))
                            (classify (ocr (processing_stages j)))
                            (classify (translation (processing_stages j))))
        as (P & n & R & B).
      split; [exact P|]. split.
      { rewrite <- (getProgress_running j (conj C F)).
        apply getProgress_le_100. }
      exists n. split; [exact R|]. split; [lia|].
      split; split; intros; (lia || congruence).
Qed.

End ProgressDisplay.

(* ===================================================================== *)
(** * 20. Block labels and heading variants (BlockHighlighter)            *)
(* ===================================================================== *)

Section BlockLabels.
Import BlockHighlighter.

Lemma number_or_positive (n : option N) (d : N) :
  (1 <= d)%N -> (1 <= number_or n d)%N.
Proof.
  intros D. unfold number_or. destruct n as [k|]; [|exact D].
  destruct (N.eqb_spec k 0); lia.
Qed.

(** X6: the text of a block is always set in a variant the UI library has:
    [body1] exactly for a block that is not a heading, and for a heading
    [h] followed by the smaller of its level and 6, hence one of [h1] to
    [h6] whatever its [heading_level] (missing, zero or above six included,
    the last giving [h6]).  The label of a heading is [H] followed by its
    level, with 1 for a missing or zero level, and names the same level as
    the variant whenever that level is at most six. *)
Theorem typography_variant_exists (b : Block) :
  In (typography_variant b) ["h1"; "h2"; "h3"; "h4"; "h5"; "h6"; "body1"] /\
  (typography_variant b = "body1" <-> flag (is_heading (metadata b)) = false) /\
  (flag (is_heading (metadata b)) = true ->
     let level := number_or (heading_level (metadata b)) 1 in
     (1 <= level)%N /\
     getBlockTypeLabel b = ("H" ++ number_to_string level)%string /\
     typography_variant b = ("h" ++ number_to_string (N.min level 6))%string /\
     ((level <= 6)%N ->
        typography_variant b = ("h" ++ number_to_string level)%string) /\
     ((6 < level)%N -> typography_variant b = "h6"%string)).
Proof.
  unfold typography_variant, getBlockTypeLabel.
  pose proof (number_or_positive (heading_level (metadata b)) 1 (N.le_refl 1)) as P.
  destruct (flag (is_heading (metadata b))).
  - set (level := number_or (heading_level (metadata b)) 1) in *.
    assert (M : (N.min level 6 = 1 \/ N.min level 6 = 2 \/ N.min level 6 = 3 \/
                 N.min level 6 = 4 \/ N.min level 6 = 5 \/ N.min level 6 = 6)%N)
      by lia.
    split; [|split; [|intros _; split; [exact P|split; [reflexivity|
                                              split; [reflexivity|split]]]]].
    + destruct M as [M|[M|[M|[M|[M|M]]]]]; rewrite M; cbn; tauto.
    + split; [|discriminate].
      destruct M as [M|[M|[M|[M|[M|M]]]]]; rewrite M; discriminate.
    + intros L. now rewrite N.min_l.
    + intros L. rewrite N.min_r by lia. reflexivity.
  - split; [cbn; tauto|]. split; [tauto|discriminate].
Qed.

End BlockLabels.

(* ===================================================================== *)
(** * 21. Search hits and highlights (ResultViewer, BlockHighlighter)     *)
(* ===================================================================== *)

Section SearchHits.
Import BlockHighlighter ResultViewer.

Lemma toLowerCase_app (a b : string) :
  toLowerCase (a ++ b) = (toLowerCase a ++ toLowerCase b)%string.
Proof. induction a as [|c a IH]; cbn; [reflexivity|now rewrite IH]. Qed.

Lemma toLowerCase_app_inv (t a b : string) :
  toLowerCase t = (a ++ b)%string ->
  exists a' b', t = (a' ++ b')%string /\ toLowerCase a' = a /\ toLowerCase b' = b.
Proof.
  revert t. induction a as [|c a IH]; intros t H.
  - exists ""%string, t. auto.
  - destruct t as [|d t]; [discriminate H|]. cbn in H. injection H as Hc Ht.
    destruct (IH t Ht) as (a' & b' & -> & Ha & Hb).
    exists (String d a'), b'. cbn. now rewrite Hc, Ha, Hb.
Qed.

(** A text in which the query occurs, case ignored, is split around a piece
    that equals the query. *)
Lemma split_scan_finds (a : ascii) (q seg rest : string) :
  (exists pre m post, rest = (pre ++ m ++ post)%string /\
                      toLowerCase m = toLowerCase (String a q)) ->
  exists x, In x (split_scan a q seg rest) /\
            toLowerCase x = toLowerCase (String a q).
Proof.
  funelim (split_scan a q seg rest); intros (pre & w & post & T & L).
  - destruct pre; [|discriminate T]. destruct w; discriminate.
  - match goal with
    | M : match_at _ _ = Some (?x, _) |- _ =>
        exists x; split; [right; left; reflexivity|
                          exact (match_at_lower _ _ _ _ M)]
    end.
  - destruct pre as [|d pre].
    + exfalso. cbn [append] in T.
      match goal with
      | M : match_at _ _ = None |- _ =>
          pose proof M as M';
          rewrite T, (match_at_complete _ _ post L) in M'; discriminate M'
      end.
    + cbn [append] in T. injection T as _ T.
      match goal with
      | IH : _ -> exists x, In x (split_scan _ _ _ _) /\ _ |- _ =>
          apply IH; eauto
      end.
Qed.

Lemma in_concat_split (x : string) (l : list string) :
  In x l -> exists pre post, String.concat "" l = (pre ++ x ++ post)%string.
Proof.
  induction l as [|y l IH]; [intros []|].
  rewrite concat_cons. intros [->|H].
  - exists ""%string, (String.concat "" l). reflexivity.
  - destruct (IH H) as (pre & post & ->).
    exists (y ++ pre)%string, post. now rewrite append_assoc.
Qed.

(** X7: for a non-empty query free of metacharacters, the text of a block
    contains the query in the sense of the search filter exactly when
    [highlightText] marks at least one part of it: what the search keeps on
    screen always shows a highlight, and what it hides would show none. *)
Theorem search_hit_iff_marked (text query : string) :
  query <> ""%string -> regex_literal query = true ->
  exists parts,
    highlightText text query = Some (Parts parts) /\
    (includes (toLowerCase text) (toLowerCase query) = true <->
     exists s, In (Mark s) parts).
Proof.
  intros NE RL. unfold highlightText, split_query.
  destruct query as [|a q]; [contradiction|].
  change (truthy (String a q)) with true. cbn [negb]. rewrite RL.
  eexists. split; [reflexivity|]. rewrite includes_spec. split.
  - intros (pre & post & H).
    apply toLowerCase_app_inv in H as (pre' & r & -> & _ & H).
    apply toLowerCase_app_inv in H as (m & post' & -> & L & _).
    destruct (split_scan_finds a q "" (pre' ++ m ++ post')) as (x & I & Lx);
      [eauto|].
    exists x. apply in_map_iff. exists x. split; [|exact I].
    unfold mark_part. apply str_eq_true in Lx. now rewrite Lx.
  - intros (s & H). apply in_map_iff in H as (x & M & I).
    unfold mark_part in M.
    destruct (str_eq (toLowerCase x) (toLowerCase (String a q))) eqn:E;
      [|discriminate M].
    apply str_eq_true in E.
    destruct (in_concat_split x _ I) as (pre & post & C).
    rewrite split_scan_concat in C. cbn [append] in C.
    exists (toLowerCase pre), (toLowerCase post).
    now rewrite C, !toLowerCase_app, E.
Qed.

Lemma search_hit_witness :
  "LL" <> ""%string /\ regex_literal "LL" = true /\
  exists parts,
    highlightText "Hello all" "LL" = Some (Parts parts) /\
    (includes (toLowerCase "Hello all") (toLowerCase "LL") = true <->
     exists s, In (Mark s) parts).
Proof.
  split; [discriminate|]. split; [reflexivity|].
  apply (search_hit_iff_marked "Hello all" "LL"); [discriminate|reflexivity].
Defined.


Lemma filter_idempotent {A : Type} (f : A -> bool) (l : list A) :
  List.filter f (List.filter f l) = List.filter f l.
Proof.
  induction l as [|x l IH]; [reflexivity|]. cbn.
  destruct (f x) eqn:E; cbn; rewrite ?E, IH; reflexivity.
Qed.

Lemma filter_swap {A : Type} (f g : A -> bool) (l : list A) :
  List.filter f (List.filter g l) = List.filter g (List.filter f l).
Proof.
  induction l as [|x l IH]; [reflexivity|]. cbn.
  destruct (f x) eqn:Ef, (g x) eqn:Eg; cbn; rewrite ?Ef, ?Eg, IH; reflexivity.
Qed.

Lemma filterBlocks_length (st : State) (xs : list Block) :
  (length (filterBlocks st xs) <= length xs)%nat.
Proof.
  unfold filterBlocks.
  destruct (negb (str_eq (filterType st) "all")), (truthy (searchQuery st));
    cbn zeta; try apply List.filter_length_le; [|lia].
  etrans; apply List.filter_length_le.
Qed.

(** X9: [filterBlocks] can be applied to the pages one by one or to all
    their blocks at once (it distributes over concatenation), filtering
    twice changes nothing, it never lengthens a list, and the type filter
    and the search filter can be applied in either order. *)
Theorem filterBlocks_algebra (st : State) (xs ys : list Block) :
  filterBlocks st (xs ++ ys) = filterBlocks st xs ++ filterBlocks st ys /\
  filterBlocks st (filterBlocks st xs) = filterBlocks st xs /\
  (length (filterBlocks st xs) <= length xs)%nat /\
  filterBlocks st xs =
    (let by_query :=
       if truthy (searchQuery st)
       then List.filter (query_pred (toLowerCase (searchQuery st))) xs
       else xs in
     if negb (str_eq (filterType st) "all")
     then List.filter (type_pred (filterType st)) by_query
     else by_query).
Proof.
  unfold filterBlocks.
  destruct (negb (str_eq (filterType st) "all")), (truthy (searchQuery st));
    cbn zeta.
  - split; [now rewrite !List.filter_app|]. split; [|split].
    + rewrite (filter_swap (type_pred _) (query_pred _)
                 (List.filter (type_pred _) xs)).
      now rewrite !filter_idempotent.
    + etrans; [apply List.filter_length_le|apply List.filter_length_le].
    + apply filter_swap.
  - split; [now rewrite !List.filter_app|]. split; [|split].
    + apply filter_idempotent.
    + apply List.filter_length_le.
    + reflexivity.
  - split; [now rewrite !List.filter_app|]. split; [|split].
    + apply filter_idempotent.
    + apply List.filter_length_le.
    + reflexivity.
  - auto.
Qed.

Lemma fold_left_lengths (ps : list Page) (n : nat) :
  fold_left (fun acc p => (acc + length (blocks p))%nat) ps n =
  (n + length (concat (map blocks ps)))%nat.
Proof.
  revert n. induction ps as [|p ps IH]; intros n; cbn; [lia|].
  rewrite IH, length_app. lia.
Qed.

Lemma shown_blocks_length (st : State) (doc : StructuredDocument) :
  (length (shown_blocks st (Some doc)) <= length (doc_blocks (Some doc)))%nat.
Proof.
  unfold shown_blocks, doc_blocks.
  induction (pages doc) as [|p ps IH]; cbn; [lia|].
  rewrite !length_app.
  pose proof (filterBlocks_length st (blocks p)).
  lia.
Qed.

(** X10: the [Blocks] statistic of a document counts all blocks of all its
    pages, whatever filter is set; its panel never shows more elements than
    that, and shows exactly that many when no filter is set. *)
Theorem blocks_statistic_bounds_panel (st : State) (doc : StructuredDocument)
    (l : Language) (notice : string) :
  blocks_statistic doc = length (doc_blocks (Some doc)) /\
  (length (panel_elements (panel st (Some doc) l notice))
   <= blocks_statistic doc)%nat /\
  (filterType st = "all" -> searchQuery st = "" ->
   length (panel_elements (panel st (Some doc) l notice)) = blocks_statistic doc).
Proof.
  assert (E : blocks_statistic doc = length (doc_blocks (Some doc))).
  { unfold blocks_statistic. now rewrite fold_left_lengths. }
  rewrite panel_elements_shown, length_map, E.
  split; [reflexivity|]. split; [apply shown_blocks_length|].
  intros F Q. now rewrite (no_filter_shows_all st (Some doc) F Q).
Qed.

End SearchHits.

(* ===================================================================== *)
(** * 22. Clicking and identifying blocks (ResultViewer)                  *)
(* ===================================================================== *)

Section Clicking.
Import BlockHighlighter ResultViewer.

Lemma elements_render (st : State) :
  elements (render st) =
  if viewer_on st
  then map (shown_block st ar) (shown_blocks st (arabicDoc st)) ++
       map (shown_block st en) (shown_blocks st (englishDoc st))
  else [].
Proof.
  unfold render, viewer_on.
  destruct (loading st); [reflexivity|].
  destruct (truthy_error (error st)); [reflexivity|].
  destruct (negb (present (arabicDoc st)) && negb (present (englishDoc st)));
    [reflexivity|].
  apply side_by_side_elements.
Qed.

(** X11: a click on a block changes nothing on the page but the highlight:
    the re-rendered page has the same elements, ids, blocks and contents in
    the same order, and an element is drawn highlighted exactly when its
    block id is the one clicked, in both panels; clicking the same block
    again changes nothing. *)
Theorem click_moves_only_the_highlight (st : State) (b : string) :
  map dom_id (elements (render (fst (handleBlockClick st b)))) =
    map dom_id (elements (render st)) /\
  map bv_block (elements (render (fst (handleBlockClick st b)))) =
    map bv_block (elements (render st)) /\
  map bv_content (elements (render (fst (handleBlockClick st b)))) =
    map bv_content (elements (render st)) /\
  (forall e, In e (elements (render (fst (handleBlockClick st b)))) ->
     (bv_highlighted e = true <-> block_id (bv_block e) = b)) /\
  fst (handleBlockClick (fst (handleBlockClick st b)) b) =
    fst (handleBlockClick st b).
Proof.
  rewrite !elements_render.
  change (viewer_on (fst (handleBlockClick st b))) with (viewer_on st).
  change (arabicDoc (fst (handleBlockClick st b))) with (arabicDoc st).
  change (englishDoc (fst (handleBlockClick st b))) with (englishDoc st).
  assert (S : forall d, shown_blocks (fst (handleBlockClick st b)) d =
                        shown_blocks st d) by reflexivity.
  rewrite !S.
  destruct (viewer_on st);
    [|split; [|split; [|split; [|split]]]; try reflexivity; intros ? []].
  split; [|split; [|split; [|split]]].
  - rewrite !map_app, !map_map. reflexivity.
  - rewrite !map_app, !map_map. reflexivity.
  - rewrite !map_app, !map_map. reflexivity.
  - intros e H. apply in_app_iff in H.
    destruct H as [H|H]; apply in_map_iff in H as (blk & <- & _);
      cbn; unfold is_highlighted; cbn; rewrite str_eq_true;
      split; congruence.
  - reflexivity.
Qed.

Lemma append_injective (p a b : string) : (p ++ a)%string = (p ++ b)%string -> a = b.
Proof.
  induction p as [|c p IH]; cbn; [auto|]. intros [= H]. exact (IH H).
Qed.

Lemma NoDup_map_injective {A B : Type} (f : A -> B) (l : list A) :
  (forall x y, f x = f y -> x = y) -> NoDup l -> NoDup (map f l).
Proof.
  intros Inj. induction 1 as [|x l N _ IH]; cbn [map]; constructor;
    [|exact IH].
  intros I. apply list_elem_of_In, in_map_iff in I as (y & E & I).
  apply Inj in E. subst y. apply N, list_elem_of_In, I.
Qed.

Lemma filterBlocks_sublist (st : State) (bs : list Block) :
  sublist (filterBlocks st bs) bs.
Proof.
  unfold filterBlocks.
  destruct (negb _), (truthy _); try reflexivity;
    try apply filter_sublist.
  etrans; apply filter_sublist.
Qed.

Lemma sublist_map {A B : Type} (f : A -> B) (l k : list A) :
  sublist l k -> sublist (map f l) (map f k).
Proof. induction 1; cbn; constructor; assumption. Qed.

Lemma shown_ids_sublist (st : State) (d : option StructuredDocument) :
  sublist (map block_id (shown_blocks st d)) (block_ids d).
Proof.
  unfold block_ids. apply sublist_map.
  destruct d as [doc|]; [|reflexivity].
  unfold shown_blocks, doc_blocks.
  induction (pages doc) as [|p ps IH]; cbn; [constructor|].
  apply sublist_app; [apply filterBlocks_sublist|exact IH].
Qed.

Lemma dom_ids_of_panel (st : State) (l : Language) (bs : list Block) :
  map dom_id (map (shown_block st l) bs) =
  map (String.append ("block-" ++ lang_tag l ++ "-")) (map block_id bs).
Proof.
  rewrite !map_map. apply map_ext. intros blk. destruct l; reflexivity.
Qed.

(** X12: when the block ids of each document are pairwise distinct, so are
    the DOM ids of all block elements on the page, across both panels and
    under every filter; so [getElementById] can only ever find the one
    element that carries the id it is given. *)
Theorem dom_ids_are_unique (st : State) :
  NoDup (block_ids (arabicDoc st)) -> NoDup (block_ids (englishDoc st)) ->
  NoDup (map dom_id (elements (render st))) /\
  (forall e e', In e (elements (render st)) -> In e' (elements (render st)) ->
                dom_id e = dom_id e' ->
                bv_language e = bv_language e' /\
                block_id (bv_block e) = block_id (bv_block e')).
Proof.
  intros Na Ne. split.
  - rewrite elements_render. destruct (viewer_on st); [|constructor].
    rewrite map_app, !dom_ids_of_panel. apply NoDup_app.
    split; [|split].
    + apply NoDup_map_injective; [apply append_injective|].
      eapply sublist_NoDup; [exact Na|apply shown_ids_sublist].
    + intros x Ha Hb. apply list_elem_of_In, in_map_iff in Ha as (i & <- & _).
      apply list_elem_of_In, in_map_iff in Hb as (i' & E & _). discriminate E.
    + apply NoDup_map_injective; [apply append_injective|].
      eapply sublist_NoDup; [exact Ne|apply shown_ids_sublist].
  - intros e e' H H' E.
    rewrite (elements_dom_id st e H), (elements_dom_id st e' H') in E.
    destruct (bv_language e), (bv_language e'); try discriminate E;
      (split; [reflexivity|]);
      [exact (append_injective "block-ar-" _ _ E)
      |exact (append_injective "block-en-" _ _ E)].
Qed.

Lemma dom_ids_are_unique_witness :
  NoDup (block_ids (arabicDoc (on_result initial both_documents))) /\
  NoDup (block_ids (englishDoc (on_result initial both_documents))) /\
  NoDup (map dom_id (elements (render (on_result initial both_documents)))).
Proof.
  assert (N : NoDup ["b1"%string]) by apply NoDup_singleton.
  split; [exact N|]. split; [exact N|].
  exact (proj1 (dom_ids_are_unique (on_result initial both_documents) N N)).
Defined.

(** X13: when loading the result fails, the viewer shows the error message
    if it is not empty and the [No results available] page if it is empty;
    in neither case is any block on the page, and the load never leaves the
    spinner up. *)
Theorem failed_load_shows_error (message : string) :
  render (on_failure initial message) =
    (if truthy message then ViewError message
     else ViewNoResults "No results available for this job.") /\
  elements (render (on_failure initial message)) = [] /\
  (forall r, render (on_result initial r) <> ViewLoading) /\
  render initial = ViewLoading.
Proof.
  split; [|split; [|split; [|reflexivity]]].
  - unfold render. cbn. destruct (truthy message); reflexivity.
  - unfold render. cbn. destruct (truthy message); reflexivity.
  - intros r. unfold render, side_by_side. cbn.
    destruct (arabic r), (english r); discriminate.
Qed.

End Clicking.

(* ===================================================================== *)
(** * 23. The upload page as a whole (UploadPage)                         *)
(* ===================================================================== *)

Section UploadSessions.
Import UploadPage.

Lemma lower_char_facts (c : ascii) :
  Ascii.eqb (lower_char c) "." = Ascii.eqb c "." /\
  lower_char (lower_char c) = lower_char c.
Proof.
  assert (H : lower_char_checks = true) by (vm_compute; reflexivity).
  unfold lower_char_checks in H. rewrite forallb_forall in H.
  specialize (H c (in_all_ascii c)). apply andb_true_iff in H as [D I].
  split; [now apply Bool.eqb_prop in D|now apply Ascii.eqb_eq in I].
Qed.

Lemma extension_toLowerCase (s : string) :
  extension (toLowerCase s) = option_map toLowerCase (extension s).
Proof.
  induction s as [|c s IH]; [reflexivity|].
  cbn [toLowerCase]. rewrite !extension_cons, IH.
  destruct (extension s); [reflexivity|]. cbn [option_map].
  rewrite (proj1 (lower_char_facts c)).
  destruct (Ascii.eqb c "."); reflexivity.
Qed.

Lemma last_segment_toLowerCase (s : string) :
  toLowerCase (last_segment s) = last_segment (toLowerCase s).
Proof.
  unfold last_segment. rewrite extension_toLowerCase.
  destruct (extension s); reflexivity.
Qed.

Lemma valid_spec (f : File) :
  valid f = true <->
  In (fileExt f) allowedTypes /\ (size f <= size_limit)%N.
Proof.
  unfold valid, type_allowed.
  rewrite andb_true_iff, N.leb_le, existsb_exists.
  split; intros [T S]; (split; [|exact S]).
  - destruct T as (x & I & E). apply str_eq_true in E. now subst x.
  - exists (fileExt f). split; [exact T|now apply str_eq_true].
Qed.

(** X14: [handleFileSelect] stores the file and clears the error exactly when
    the lowercased text after the last dot of the name (the whole name when
    it has no dot), with a dot in front, is an allowed type and the size is
    at most 50 MiB.  Otherwise it keeps the file stored before and sets a
    message, the one about the type when the type is wrong, whatever the
    size.  An empty selection changes nothing, and a drop is handled like a
    selection. *)
Theorem handleFileSelect_decides_by_last_segment (st : State) (f : File)
    (rest : list File) :
  fileExt f = ("." ++ toLowerCase (last_segment (name f)))%string /\
  (handleFileSelect st (f :: rest) = accepted st f <->
   In (fileExt f) allowedTypes /\ (size f <= size_limit)%N) /\
  (valid f = false ->
   file (handleFileSelect st (f :: rest)) = file st /\
   error (handleFileSelect st (f :: rest)) =
     Some (if type_allowed f then "File size exceeds 50MB limit"%string
           else type_error_message)) /\
  handleFileSelect st [] = st /\
  handleDrop st [] = st /\
  handleDrop st (f :: rest) = handleFileSelect st (f :: rest).
Proof.
  split; [apply fileExt_extension|].
  split; [|split; [|repeat split]].
  - rewrite <- valid_spec. unfold handleFileSelect, valid. cbn [head].
    destruct (type_allowed f); cbn [negb andb].
    + destruct (N.leb_spec (size f) size_limit) as [L|L].
      * apply N.ltb_ge in L. rewrite L. split; reflexivity.
      * apply N.ltb_lt in L. rewrite L.
        split; [intros H|discriminate].
        apply (f_equal error) in H. discriminate H.
    + split; [intros H|discriminate].
      apply (f_equal error) in H. discriminate H.
  - unfold handleFileSelect, valid. cbn [head].
    destruct (type_allowed f); cbn [negb andb].
    + intros V. apply N.leb_gt, N.ltb_lt in V. rewrite V. split; reflexivity.
    + intros _. split; reflexivity.
Qed.

(** X15: the checks do not look at letter case in the file name: two files
    whose names differ only in case, with the same size, are both accepted
    or both rejected, with the same message. *)
Theorem upload_validation_ignores_case (st : State) (f g : File) :
  toLowerCase (name f) = toLowerCase (name g) -> size f = size g ->
  fileExt f = fileExt g /\
  valid f = valid g /\
  error (handleFileSelect st [f]) = error (handleFileSelect st [g]).
Proof.
  intros N S.
  assert (E : fileExt f = fileExt g).
  { rewrite !fileExt_extension. fold (last_segment (name f)).
    fold (last_segment (name g)).
    now rewrite !last_segment_toLowerCase, N. }
  assert (T : type_allowed f = type_allowed g)
    by (unfold type_allowed; now rewrite E).
  split; [exact E|]. split.
  - unfold valid. now rewrite T, S.
  - unfold handleFileSelect. cbn [head]. rewrite T, S.
    destruct (type_allowed g); cbn [negb]; [|reflexivity].
    destruct (size_limit <? size g)%N; reflexivity.
Qed.

Lemma upload_validation_witness :
  toLowerCase "Scan.PDF" = toLowerCase "scan.pdf" /\
  valid {| name := "Scan.PDF"; size := 10 |} =
  valid {| name := "scan.pdf"; size := 10 |}.
Proof.
  split; [reflexivity|].
  exact (proj1 (proj2 (upload_validation_ignores_case initial
           {| name := "Scan.PDF"; size := 10 |}
           {| name := "scan.pdf"; size := 10 |} eq_refl eq_refl))).
Defined.

Lemma handleFileSelect_valid (st : State) (files : list File) :
  stored_file_valid st -> stored_file_valid (handleFileSelect st files).
Proof.
  intros V. unfold handleFileSelect.
  destruct (head files) as [f|]; [|exact V].
  destruct (type_allowed f) eqn:T; cbn [negb]; [|exact V].
  destruct (N.ltb_spec size_limit (size f)) as [L|L]; [exact V|].
  intros g [= <-]. unfold valid. rewrite T. cbn. now apply N.leb_le.
Qed.

Lemma step_valid (st : State) (ev : Event) :
  stored_file_valid st ->
  stored_file_valid (fst (step st ev)) /\
  (forall f e, In (CallCreateJob f e) (snd (step st ev)) ->
               file st = Some f /\ e = ocrEngine st /\ uploading st = false).
Proof.
  intros V. destruct ev as [files|files|e|o]; cbn [step fst snd].
  - split; [now apply handleFileSelect_valid|intros ? ? []].
  - split; [|intros ? ? []]. unfold handleDrop.
    destruct (head files); [now apply handleFileSelect_valid|exact V].
  - split; [exact V|intros ? ? []].
  - unfold upload_disabled, handleUpload.
    destruct (file st) as [f|] eqn:F; [|split; [exact V|intros ? ? []]].
    destruct (uploading st) eqn:U; [split; [exact V|intros ? ? []]|].
    destruct o as [id|d m]; cbn [fst snd];
      (split; [intros g H; apply V; rewrite F; exact H|]).
    + intros g e [[= <- <-]|[H|[]]]; [auto|discriminate H].
    + intros g e [[= <- <-]|[]]; auto.
Qed.

(** X16: whatever the user selects, drops, chooses and clicks, starting from
    the page as mounted, the file held by the page has passed the type and
    size checks, and [createJob] is only ever called with such a file. *)
Theorem upload_page_sends_only_checked_files (evs : list Event) :
  stored_file_valid (fst (run initial evs)) /\
  (forall f e, In (CallCreateJob f e) (snd (run initial evs)) ->
               valid f = true).
Proof.
  assert (G : forall st, stored_file_valid st ->
            stored_file_valid (fst (run st evs)) /\
            (forall f e, In (CallCreateJob f e) (snd (run st evs)) ->
                         valid f = true)).
  { induction evs as [|ev evs IH]; intros st V; cbn [run].
    - split; [exact V|intros ? ? []].
    - destruct (step_valid st ev V) as [V1 C1].
      destruct (step st ev) as [st1 es1]. cbn [fst snd] in *.
      destruct (IH st1 V1) as [V2 C2].
      destruct (run st1 evs) as [st2 es2]. cbn [fst snd] in *.
      split; [exact V2|]. intros f e H. apply in_app_iff in H as [H|H].
      + apply V. exact (proj1 (C1 f e H)).
      + exact (C2 f e H). }
  apply G. intros f H. discriminate H.
Qed.

(** X17: a failed upload keeps the selected file, stops the progress
    indicator and shows a message that is never empty: the server's detail
    when that is not empty, else the error's message when that is not empty,
    else [Upload failed]; so the button is enabled again for a retry.
    Without a file [handleUpload] does nothing. *)
Theorem failed_upload_can_be_retried (st : State) (f : File)
    (detail message : option string) :
  (forall o, file st = None -> handleUpload st o = (st, [])) /\
  (file st = Some f ->
   let st' := fst (handleUpload st (Thrown detail message)) in
   file st' = Some f /\ uploading st' = false /\ upload_disabled st' = false /\
   ocrEngine st' = ocrEngine st /\
   (exists m, error st' = Some m /\ m <> ""%string /\
              (forall d, detail = Some d -> d <> ""%string -> m = d) /\
              (falsy detail -> forall e, message = Some e -> e <> ""%string ->
               m = e) /\
              (falsy detail -> falsy message -> m = "Upload failed"%string)) /\
   snd (handleUpload st (Thrown detail message)) =
     [CallCreateJob f (ocrEngine st)]).
Proof.
  split; [intros o N; unfold handleUpload; now rewrite N|].
  intros F. unfold handleUpload, upload_disabled. rewrite F. cbn.
  rewrite ?F.
  split; [reflexivity|]. split; [reflexivity|]. split; [reflexivity|].
  split; [reflexivity|]. split; [|reflexivity].
  eexists. split; [reflexivity|].
  assert (FT : forall o d, falsy o -> first_truthy o d = d).
  { intros o d [->| ->]; reflexivity. }
  assert (TT : forall x d, x <> ""%string -> first_truthy (Some x) d = x).
  { intros x d N. unfold first_truthy. apply truthy_true in N. now rewrite N. }
  split; [|split; [|split]].
  - unfold first_truthy.
    destruct detail as [d|]; [destruct (truthy d) eqn:T;
                              [now apply truthy_true|]|];
      (destruct message as [e|]; [destruct (truthy e) eqn:T';
                                  [now apply truthy_true|]|]); discriminate.
  - intros d -> N. now apply TT.
  - intros D e -> N. rewrite (FT _ _ D). now apply TT.
  - intros D M. now rewrite (FT _ _ D), (FT _ _ M).
Qed.

Lemma failed_upload_witness :
  file (accepted initial {| name := "scan.pdf"; size := 10 |}) =
    Some {| name := "scan.pdf"; size := 10 |} /\
  upload_disabled
    (fst (handleUpload (accepted initial {| name := "scan.pdf"; size := 10 |})
                       (Thrown None None))) = false.
Proof.
  split; [reflexivity|].
  exact (proj1 (proj2 (proj2 (proj2 (failed_upload_can_be_retried
           (accepted initial {| name := "scan.pdf"; size := 10 |})
           {| name := "scan.pdf"; size := 10 |} None None) eq_refl)))).
Defined.

Lemma run_while_uploading (st : State) (evs : list Event) :
  uploading st = true ->
  snd (run st evs) = [] /\ uploading (fst (run st evs)) = true.
Proof.
  revert st. induction evs as [|ev evs IH]; intros st U; cbn [run];
    [split; [reflexivity|exact U]|].
  assert (S : snd (step st ev) = [] /\ uploading (fst (step st ev)) = true).
  { destruct ev as [files|files|e|o]; cbn [step fst snd].
    - split; [reflexivity|]. unfold handleFileSelect.
      destruct (head files) as [f|]; [|exact U].
      destruct (negb (type_allowed f)); [exact U|].
      destruct (size_limit <? size f)%N; exact U.
    - split; [reflexivity|]. unfold handleDrop, handleFileSelect.
      destruct (head files) as [f|]; [|exact U].
      destruct (negb (type_allowed f)); [exact U|].
      destruct (size_limit <? size f)%N; exact U.
    - split; [reflexivity|exact U].
    - unfold upload_disabled. rewrite U.
      destruct (file st); split; auto. }
  destruct (step st ev) as [st1 es1]. cbn [fst snd] in S. destruct S as [-> U1].
  destruct (IH st1 U1) as [E U2].
  destruct (run st1 evs) as [st2 es2]. cbn [fst snd] in *. now rewrite E.
Qed.

(** X18: once an upload has succeeded the page submits nothing more: the
    button stays disabled, and no later selection, drop, choice or click
    makes the page call [createJob] or navigate again. *)
Theorem successful_upload_is_final (st : State) (f : File) (id : string)
    (evs : list Event) :
  file st = Some f ->
  snd (handleUpload st (Created id)) =
    [CallCreateJob f (ocrEngine st); Navigate ("/job/" ++ id)] /\
  upload_disabled (fst (handleUpload st (Created id))) = true /\
  snd (run (fst (handleUpload st (Created id))) evs) = [] /\
  upload_disabled (fst (run (fst (handleUpload st (Created id))) evs)) = true.
Proof.
  intros F.
  assert (U : uploading (fst (handleUpload st (Created id))) = true)
    by (unfold handleUpload; rewrite F; reflexivity).
  destruct (run_while_uploading _ evs U) as [E U'].
  split; [unfold handleUpload; now rewrite F|].
  assert (D : forall s, uploading s = true -> upload_disabled s = true)
    by (intros s Hs; unfold upload_disabled; rewrite Hs; now destruct (file s)).
  repeat split; auto.
Qed.

Lemma successful_upload_witness :
  file (accepted initial {| name := "scan.pdf"; size := 10 |}) =
    Some {| name := "scan.pdf"; size := 10 |} /\
  snd (run (fst (handleUpload
                   (accepted initial {| name := "scan.pdf"; size := 10 |})
                   (Created "j1")))
           [ClickUpload (Created "j2")]) = [].
Proof.
  split; [reflexivity|].
  exact (proj1 (proj2 (proj2 (successful_upload_is_final
           (accepted initial {| name := "scan.pdf"; size := 10 |})
           {| name := "scan.pdf"; size := 10 |} "j1"
           [ClickUpload (Created "j2")] eq_refl)))).
Defined.

End UploadSessions.

(* ===================================================================== *)
(** * 24. The download menu (DownloadOptions)                             *)
(* ===================================================================== *)

Section Downloads.
Import BlockHighlighter DownloadOptions.

(** X19: starting a download disables exactly the menu item of the download
    just started and leaves the menu as it was.  The page keeps one
    [downloading] cell: starting another download while the first is still
    running re-enables the first one's item, and when a download ends, with
    the file or with an error, no item is disabled and the menu is closed,
    whatever else is still running.  The file is saved only when the request
    succeeded, and a failure raises the alert instead. *)
Theorem download_disables_its_own_item (st : State) (l l' l2 : Language)
    (f f' f2 : Format) (ok : bool) :
  (item_disabled (fst (begin_download st l f)) l' f' = true <->
   l' = l /\ f' = f) /\
  menu_open (fst (begin_download st l f)) = menu_open st /\
  (item_disabled (fst (begin_download (fst (begin_download st l f)) l2 f2)) l f
     = true <-> l = l2 /\ f = f2) /\
  menu_open (fst (finish_download st l f ok)) = false /\
  item_disabled (fst (finish_download st l f ok)) l' f' = false /\
  menu_open (fst (handleDownload st l f ok)) = false /\
  item_disabled (fst (handleDownload st l f ok)) l' f' = false /\
  (In (AppendAnchor (download_name l f)) (snd (handleDownload st l f ok))
   <-> ok = true) /\
  (In (Alert "Download failed. Please try again.")
      (snd (handleDownload st l f ok)) <-> ok = false) /\
  (ok = false ->
   List.filter is_save (snd (handleDownload st l f ok)) = []).
Proof.
  split; [|split; [reflexivity|split;
           [|split; [reflexivity|split; [reflexivity|split;
              [reflexivity|split; [reflexivity|]]]]]]].
  - destruct l, l', f, f'; cbn; split;
      solve [discriminate | intros [? ?]; discriminate | auto].
  - destruct l, l2, f, f2; cbn; split;
      solve [discriminate | intros [? ?]; discriminate | auto].
  - destruct ok; cbn; repeat split; try discriminate; try reflexivity;
      try (intros _; tauto);
      try (intros H; repeat (destruct H as [H|H]; try discriminate H);
           try destruct H); auto.
Qed.

(** X20: the name under which a download is saved tells the language and the
    format apart: two downloads get the same file name only if they are for
    the same language and the same format; and the name ends in the format's
    own extension. *)
Theorem download_name_is_unambiguous (l l' : Language) (f f' : Format) :
  (download_name l f = download_name l' f' -> l = l' /\ f = f') /\
  exists stem, download_name l f = (stem ++ "." ++ format_tag f)%string /\
               (stem = "document_arabic"%string \/ stem = "document_english"%string).
Proof.
  split.
  - destruct l, l', f, f'; cbn; intros H; try discriminate H; auto.
  - exists (match l with
            | ar => "document_arabic"
            | en => "document_english"
            end)%string.
    destruct l, f; cbn; auto.
Qed.

Lemma download_name_witness :
  download_name ar docx = download_name ar docx /\ ar = ar /\ docx = docx.
Proof.
  split; [reflexivity|].
  exact (proj1 (download_name_is_unambiguous ar ar docx docx) eq_refl).
Defined.

End Downloads.

(* ===================================================================== *)
(** * 25. Polling on the mounted status page                              *)
(* ===================================================================== *)

Section MountedPolling.
Import useJobPolling StatusPage.

Lemma poll_settles_failed (m : Mounted) (j : Job) :
  truthy (jobId m) = true -> status j = "failed" ->
  fst (poll callbacks (intervalRef m) (Resolved j)) = None /\
  intervalRef (fst (poll_settles m (Resolved j))) = Some (next_timer m) /\
  next_timer (fst (poll_settles m (Resolved j))) = (next_timer m + 1)%N /\
  jobId (fst (poll_settles m (Resolved j))) = jobId m /\
  job (fst (poll_settles m (Resolved j))) = Some j /\
  length (List.filter is_request (snd (poll_settles m (Resolved j)))) = 2%nat /\
  In (Hook (CallOnError (or_default (error_message j) "Job failed")))
     (snd (poll_settles m (Resolved j))) /\
  In (SetInterval (next_timer m)) (snd (poll_settles m (Resolved j))).
Proof.
  intros T F. unfold poll_settles, poll. rewrite F.
  cbn [str_eq String.eqb Ascii.eqb Bool.eqb orb andb callbacks onUpdate
       onComplete onError].
  destruct (intervalRef m) as [t|]; cbn; rewrite T; cbn;
    repeat split; auto 10.
Qed.

(** On the mounted page polling goes on after a failed job, however often
    the server answers with it: every answer is followed by two new requests
    and a new interval. *)
Lemma failed_polls_never_stop (m : Mounted) (j : Job) (n : nat) :
  truthy (jobId m) = true -> status j = "failed" ->
  intervalRef (fst (polls_settle m (repeat (Resolved j) (S n)))) <> None /\
  length (List.filter is_request
            (snd (polls_settle m (repeat (Resolved j) (S n))))) = (2 * S n)%nat.
Proof.
  intros T F.
  assert (G : forall k m, truthy (jobId m) = true ->
            truthy (jobId (fst (polls_settle m (repeat (Resolved j) k)))) = true /\
            (k <> 0%nat ->
             intervalRef (fst (polls_settle m (repeat (Resolved j) k))) <> None) /\
            length (List.filter is_request
                      (snd (polls_settle m (repeat (Resolved j) k)))) = (2 * k)%nat).
  { clear m T. induction k as [|k IH]; intros m T.
    - cbn. split; [exact T|]. split; [congruence|reflexivity].
    - cbn [repeat polls_settle].
      destruct (poll_settles_failed m j T F) as (_ & R & _ & J & _ & C & _).
      destruct (poll_settles m (Resolved j)) as [m1 a1]. cbn [fst snd] in *.
      assert (T1 : truthy (jobId m1) = true) by now rewrite J.
      destruct (IH m1 T1) as (T2 & R2 & C2).
      destruct (polls_settle m1 (repeat (Resolved j) k)) as [m2 a2] eqn:E.
      cbn [fst snd] in *.
      split; [exact T2|]. split.
      + intros _. destruct k as [|k].
        * cbn in E. injection E as <- _. rewrite R. discriminate.
        * apply R2. discriminate.
      + rewrite List.filter_app, length_app, C, C2. lia. }
  destruct (G (S n) m T) as (_ & R & C). split; [apply R; discriminate|exact C].
Qed.

(** C5: on the status page a poll that returns a failed job does call
    [onUpdate], clear the interval and call [onError] with the job's message,
    but polling does not stop: the page renders again, both effects re-run,
    and a new poll and a new interval are started. *)
Theorem failed_job_keeps_status_page_polling :
  poll callbacks (Some 1%N) (Resolved job_extraction_failed) =
    (None, [CallOnUpdate job_extraction_failed; ClearInterval 1%N;
            CallOnError "corrupt document"]) /\
  snd (poll_settles page_polling (Resolved job_extraction_failed)) =
    [Hook (CallOnUpdate job_extraction_failed); Hook (ClearInterval 1%N);
     Hook (CallOnError "corrupt document");
     GetJob; SetInterval 2%N; GetJob] /\
  intervalRef (fst (poll_settles page_polling (Resolved job_extraction_failed)))
    = Some 2%N /\
  (forall n,
     intervalRef (fst (polls_settle page_polling
                         (repeat (Resolved job_extraction_failed) (S n))))
       <> None /\
     length (List.filter is_request
               (snd (polls_settle page_polling
                       (repeat (Resolved job_extraction_failed) (S n)))))
       = (2 * S n)%nat).
Proof.
  split; [reflexivity|]. split; [reflexivity|]. split; [reflexivity|].
  intros n. apply failed_polls_never_stop; reflexivity.
Qed.

End MountedPolling.
